(** * wger exercises: API views, history view and the [Exercise] model

    A shallow embedding of

    - [wger/exercises/models/exercise.py]  (the [Exercise] model),
    - [wger/exercises/api/views.py]        (REST endpoints and [search]),
    - [wger/exercises/views/history.py]    (the history pages),

    together with the properties the specification states about them.

    Database tables are lists of rows in the order the database returns
    them, foreign keys that the code navigates ([exercise.exercise_base],
    [setting.set.exerciseday]) are the referenced row itself, the Django
    cache is a finite map, and view code runs in a small state and
    exception monad over the database, the cache and the log. *)

From Stdlib Require Import ZArith Lia Ascii String.
From stdpp Require Import base option list sorting gmap strings.

Local Open Scope string_scope.
Local Open Scope Z_scope.

Set Warnings "-clear-no-such-hyp".

(** ** Python strings and built-ins

    A character is a code point below 256; [String.string] is the text.
    Text with code points above 255 is outside this model. *)

Definition ord (c : ascii) : Z := Z.of_nat (nat_of_ascii c).

(** [str.isspace] on the code points below 256: what [str.strip]
    removes. *)
Definition isspace (c : ascii) : bool :=
  let n := ord c in
  ((9 <=? n) && (n <=? 13)) || ((28 <=? n) && (n <=? 32))
  || (n =? 133) || (n =? 160).

(** The white space that [int] skips around a literal: tab to carriage
    return and the space, and the two white-space code points from 128
    to 255.  The separators 28 to 31 are white space for [str.isspace],
    but [int] raises on them. *)
Definition int_isspace (c : ascii) : bool :=
  let n := ord c in
  ((9 <=? n) && (n <=? 13)) || (n =? 32) || (n =? 133) || (n =? 160).

(** The value of a decimal digit, [None] for any other character. *)
Definition digit_value (c : ascii) : option Z :=
  let n := ord c in
  if (48 <=? n) && (n <=? 57) then Some (n - 48) else None.

(** Dropping the characters in [space] from the left, from the right
    and from both ends. *)
Fixpoint lstrip (space : ascii → bool) (s : string) : string :=
  match s with
  | String c s' => if space c then lstrip space s' else s
  | EmptyString => EmptyString
  end.

Definition rstrip (space : ascii → bool) (s : string) : string :=
  String.rev (lstrip space (String.rev s)).

Definition strip (space : ascii → bool) (s : string) : string :=
  rstrip space (lstrip space s).

(** [sys.get_int_max_str_digits()]: a literal with more digits is
    rejected with [ValueError]; 4300 unless configured otherwise. *)
Definition int_max_str_digits : Z := 4300.

(** The digits of a decimal literal after its first digit: an underscore
    may separate two digits, and nothing else may occur.  [digits]
    counts the digits read, [after_us] records that the previous
    character was an underscore. *)
Fixpoint int_digits (acc digits : Z) (after_us : bool) (s : string) : option Z :=
  match s with
  | EmptyString =>
      if after_us then None
      else if int_max_str_digits <? digits then None
      else Some acc
  | String c s' =>
      if Ascii.eqb c "_"%char then
        if after_us then None else int_digits acc digits true s'
      else
        match digit_value c with
        | Some d => int_digits (10 * acc + d) (digits + 1) false s'
        | None => None
        end
  end.

Definition int_unsigned (s : string) : option Z :=
  match s with
  | String c s' =>
      match digit_value c with
      | Some d => int_digits d 1 false s'
      | None => None
      end
  | EmptyString => None
  end.

(** Python's [int(s)] for a string in base ten: surrounding white space
    is dropped, one sign is allowed, and [None] stands for [ValueError]. *)
Definition int (s : string) : option Z :=
  match strip int_isspace s with
  | String c s' =>
      if Ascii.eqb c "-" then Z.opp <$> int_unsigned s'
      else if Ascii.eqb c "+" then int_unsigned s'
      else int_unsigned (String c s')
  | EmptyString => None
  end.

(** [s.split(sep)] for a one-character separator. *)
Fixpoint split (sep : ascii) (s : string) : list string :=
  match s with
  | EmptyString => [EmptyString]
  | String c s' =>
      if Ascii.eqb c sep then EmptyString :: split sep s'
      else match split sep s' with
           | w :: ws => String c w :: ws
           | [] => [String c EmptyString]
           end
  end.

(** Truth value of a string: the empty string is false. *)
Definition truthy (s : string) : bool :=
  match s with EmptyString => false | _ => true end.

Definition lower_char (c : ascii) : ascii :=
  let n := ord c in
  if (65 <=? n) && (n <=? 90) then ascii_of_nat (Z.to_nat (n + 32)) else c.

Fixpoint lower (s : string) : string :=
  match s with
  | EmptyString => EmptyString
  | String c s' => String (lower_char c) (lower s')
  end.

(** [needle in haystack] *)
Fixpoint contains (needle haystack : string) : bool :=
  String.prefix needle haystack
  || match haystack with
     | EmptyString => false
     | String _ h' => contains needle h'
     end.

(** The ORM lookup [field__icontains=q]: containment without regard to
    the case of the letters A to Z. *)
Definition icontains (field q : string) : bool :=
  contains (lower q) (lower field).

(** ** JSON values carried by responses *)

#[warnings="-register-all"]
Inductive JSON :=
  | JNull
  | JBool (b : bool)
  | JInt (n : Z)
  | JStr (s : string)
  | JList (l : list JSON)
  | JDict (d : list (string * JSON)).

(** [d[k] = v] on a dict kept in insertion order. *)
Fixpoint dict_set (k : string) (v : JSON) (d : list (string * JSON))
  : list (string * JSON) :=
  match d with
  | [] => [(k, v)]
  | (k', v') :: d' =>
      if String.eqb k k' then (k, v) :: d' else (k', v') :: dict_set k v d'
  end.

Definition json_option {A} (f : A → JSON) (o : option A) : JSON :=
  match o with Some a => f a | None => JNull end.

(** ** The data model

    A forward foreign key that the code navigates as an attribute is the
    referenced row; a reverse relation is a scan of the referring table
    by primary key. *)

Record Language := {
  language_pk : Z;
  short_name : string;
}.

Record ExerciseCategory := {
  category_pk : Z;
  category_name : string;
}.

(** [ExerciseBase]: the fields the exercise code reads.  The
    many-to-many relations hold the primary keys of the related rows. *)
Record ExerciseBase := {
  base_pk : Z;
  base_category : ExerciseCategory;
  base_muscles : list Z;
  base_muscles_secondary : list Z;
  base_equipment : list Z;
  base_license_id : Z;
}.

(** [class Exercise(AbstractLicenseModel, models.Model)].  [pk] is
    [None] until the row has been inserted; [exercise_base] is declared
    [null=True, default=None]. *)
Record Exercise := {
  pk : option Z;
  description : string;
  name : string;
  creation_date : option Z;
  update_date : Z;
  language : Language;
  uuid : string;
  exercise_base : option ExerciseBase;
  license_id : Z;
  license_author : string;
}.

Record Alias := {
  alias_exercise_id : Z;
  alias : string;
}.

Inductive SubmissionStatus := STATUS_PENDING | STATUS_ACCEPTED | STATUS_DECLINED.

Record ImageFile := {
  file_name : string;
  url : string;
}.

Record ExerciseImage := {
  image_pk : Z;
  image_exercise_base_id : Z;
  image : ImageFile;
  is_main : bool;
  status : SubmissionStatus;
}.

(** The workout tables of [wger.manager]: a [Setting] belongs to a [Set],
    a [Set] to a [Day], a [Day] to a workout ([training]); all three
    foreign keys are mandatory. *)
Record Day := {
  training_id : Z;
}.

Record WorkoutSet := {
  exerciseday : Day;
}.

Record Setting := {
  setting_exercise_base_id : Z;
  workout_set : WorkoutSet;
}.

(** A row of [Exercise.history]: the bookkeeping columns and the state
    of the exercise at that revision. *)
Record HistoricalExercise := {
  history_id : Z;
  history_date : Z;
  history_type : string;
  instance : Exercise;
}.

Record User := {
  username : string;
  user_permissions : list string;
}.

(** An entry of the activity stream. *)
Record Action := {
  actor : string;
  verb : string;
  action_object : Exercise;
}.

(** Keys of the Django cache that the exercise code deletes. *)
Inductive CacheKey :=
  | TemplateFragment (fragment : string) (vary_on : Z)
  | WorkoutCanonical (workout_id : Z).

Global Instance CacheKey_eq_dec : EqDecision CacheKey.
Proof. solve_decision. Defined.

Global Instance CacheKey_countable : Countable CacheKey :=
  inj_countable'
    (λ k, match k with
          | TemplateFragment f v => inl (f, v)
          | WorkoutCanonical w => inr w
          end)
    (λ s, match s with
          | inl (f, v) => TemplateFragment f v
          | inr w => WorkoutCanonical w
          end)
    (λ k, match k with
          | TemplateFragment _ _ => eq_refl
          | WorkoutCanonical _ => eq_refl
          end).

Global Instance SubmissionStatus_eq_dec : EqDecision SubmissionStatus.
Proof. solve_decision. Defined.

Global Instance Language_eq_dec : EqDecision Language.
Proof. solve_decision. Defined.
Global Instance ExerciseCategory_eq_dec : EqDecision ExerciseCategory.
Proof. solve_decision. Defined.
Global Instance ExerciseBase_eq_dec : EqDecision ExerciseBase.
Proof. solve_decision. Defined.
Global Instance Exercise_eq_dec : EqDecision Exercise.
Proof. solve_decision. Defined.

(** ** The world a request runs in *)

Record World := {
  languages : list Language;
  exercise_bases : list ExerciseBase;
  exercises : list Exercise;
  (** the largest key the table of exercises has handed out so far *)
  exercise_sequence : Z;
  aliases : list Alias;
  exercise_images : list ExerciseImage;
  settings : list Setting;
  exercise_history : list HistoricalExercise;
  actions : list Action;
  cache : gmap CacheKey string;
  log : list string;
  now : Z;
}.

Definition with_cache (c : gmap CacheKey string) (w : World) : World :=
  {| languages := languages w; exercise_bases := exercise_bases w;
     exercises := exercises w; exercise_sequence := exercise_sequence w;
     aliases := aliases w;
     exercise_images := exercise_images w; settings := settings w;
     exercise_history := exercise_history w; actions := actions w;
     cache := c; log := log w; now := now w |}.

Definition with_log (l : list string) (w : World) : World :=
  {| languages := languages w; exercise_bases := exercise_bases w;
     exercises := exercises w; exercise_sequence := exercise_sequence w;
     aliases := aliases w;
     exercise_images := exercise_images w; settings := settings w;
     exercise_history := exercise_history w; actions := actions w;
     cache := cache w; log := l; now := now w |}.

Definition with_actions (a : list Action) (w : World) : World :=
  {| languages := languages w; exercise_bases := exercise_bases w;
     exercises := exercises w; exercise_sequence := exercise_sequence w;
     aliases := aliases w;
     exercise_images := exercise_images w; settings := settings w;
     exercise_history := exercise_history w; actions := a;
     cache := cache w; log := log w; now := now w |}.

Definition with_exercises (es : list Exercise) (hs : list HistoricalExercise)
    (w : World) : World :=
  {| languages := languages w; exercise_bases := exercise_bases w;
     exercises := es; exercise_sequence := exercise_sequence w;
     aliases := aliases w;
     exercise_images := exercise_images w; settings := settings w;
     exercise_history := hs; actions := actions w;
     cache := cache w; log := log w; now := now w |}.

Definition with_exercise_sequence (key : Z) (w : World) : World :=
  {| languages := languages w; exercise_bases := exercise_bases w;
     exercises := exercises w; exercise_sequence := key;
     aliases := aliases w;
     exercise_images := exercise_images w; settings := settings w;
     exercise_history := exercise_history w; actions := actions w;
     cache := cache w; log := log w; now := now w |}.

Definition with_aliases (al : list Alias) (w : World) : World :=
  {| languages := languages w; exercise_bases := exercise_bases w;
     exercises := exercises w; exercise_sequence := exercise_sequence w;
     aliases := al;
     exercise_images := exercise_images w; settings := settings w;
     exercise_history := exercise_history w; actions := actions w;
     cache := cache w; log := log w; now := now w |}.

(** ** Exceptions and the monad of view code *)

Inductive exn :=
  | ValueError
  | AttributeError (attribute : string)
  | AssertionError
  | DoesNotExist
  | MultipleObjectsReturned.

Global Instance exn_eq_dec : EqDecision exn.
Proof. solve_decision. Defined.

Inductive outcome (A : Type) :=
  | Ok (a : A)
  | Raised (e : exn).
Arguments Ok {A} a.
Arguments Raised {A} e.

(** A computation reads and writes the world and returns or raises; what
    it wrote before raising stays written. *)
Definition M (A : Type) : Type := World → outcome A * World.

Global Instance M_ret : MRet M := λ A a w, (Ok a, w).

Global Instance M_bind : MBind M := λ A B f m w,
  match m w with
  | (Ok a, w') => f a w'
  | (Raised e, w') => (Raised e, w')
  end.

Definition raise {A} (e : exn) : M A := λ w, (Raised e, w).
Definition gets {A} (f : World → A) : M A := λ w, (Ok (f w), w).
Definition modify (f : World → World) : M unit := λ w, (Ok tt, f w).

(** [try: body  except caught: handler] *)
Definition try_except {A} (body : M A) (caught : exn) (handler : M A) : M A :=
  λ w,
  match body w with
  | (Raised e, w') => if bool_decide (e = caught) then handler w' else (Raised e, w')
  | r => r
  end.

(** [for x in l: body x] *)
Fixpoint for_each {A} (l : list A) (body : A → M unit) : M unit :=
  match l with
  | [] => mret tt
  | x :: l' => body x ;; for_each l' body
  end.

(** [int(s)] as a computation. *)
Definition py_int (s : string) : M Z :=
  match int s with
  | Some n => mret n
  | None => raise ValueError
  end.

(** [logger.info(msg)] *)
Definition logger_info (msg : string) : M unit :=
  modify (λ w, with_log (log w ++ [msg])%list w).

(** ** Cache helpers of [wger.utils.cache] *)

(** Modelled from the spec: [delete_template_fragment_cache] of
    [wger.utils.cache] is not part of the sources at hand.  It is the
    "cache-fragment invalidation capability": the cached fragment of that
    name for that language is deleted from the cache. *)
Definition delete_template_fragment_cache (fragment : string) (vary_on : Z)
  : M unit :=
  modify (λ w, with_cache (delete (TemplateFragment fragment vary_on) (cache w)) w).

(** Modelled from the spec: [reset_workout_canonical_form] of
    [wger.utils.cache] is not part of the sources at hand.  It is the
    "canonical-workout-cache-reset capability": the cached canonical
    form of that workout is deleted from the cache. *)
Definition reset_workout_canonical_form (workout_id : Z) : M unit :=
  modify (λ w, with_cache (delete (WorkoutCanonical workout_id) (cache w)) w).

(** ** [django.db.models.Model] and the history of [simple_history] *)

Definition max_pk (es : list Exercise) : Z :=
  foldr (λ e acc, Z.max (default 0 (pk e)) acc) 0 es.

Definition max_history_id (hs : list HistoricalExercise) : Z :=
  foldr (λ h acc, Z.max (history_id h) acc) 0 hs.

Definition has_pk (i : Z) (e : Exercise) : bool :=
  bool_decide (pk e = Some i).

Definition is_stored (self : Exercise) (w : World) : bool :=
  match pk self with
  | Some i => existsb (has_pk i) (exercises w)
  | None => false
  end.

(** The key of the next row inserted without one: keys are never handed
    out twice, so it is one more than the largest key the table has ever
    held, whether or not that row is still stored. *)
Definition next_pk (w : World) : Z :=
  Z.max (exercise_sequence w) (max_pk (exercises w)) + 1.

(** The row that [Model.save] writes: [auto_now] stamps [update_date] on
    every save, [auto_now_add] stamps [creation_date] on insertion, and an
    inserted row without a primary key gets the next one. *)
Definition stamped (self : Exercise) (w : World) : Exercise :=
  let inserting := negb (is_stored self w) in
  {| pk := Some (default (next_pk w) (pk self));
     description := description self;
     name := name self;
     creation_date := if inserting then Some (now w) else creation_date self;
     update_date := now w;
     language := language self;
     uuid := uuid self;
     exercise_base := exercise_base self;
     license_id := license_id self;
     license_author := license_author self |}.

Definition historical (type : string) (e : Exercise) (w : World)
  : HistoricalExercise :=
  {| history_id := max_history_id (exercise_history w) + 1;
     history_date := now w;
     history_type := type;
     instance := e |}.

(** [super().save()]: update the row with this primary key, or insert
    one, which moves the sequence of keys on to the key of the new row;
    [HistoricalRecords] adds the revision, newest first.  The saved
    instance is returned in place of the mutation of [self]. *)
Definition Model_save (self : Exercise) : M Exercise := λ w,
  let row := stamped self w in
  let rows :=
    if is_stored self w
    then (λ e, if bool_decide (pk e = pk row) then row else e) <$> exercises w
    else (exercises w ++ [row])%list in
  let sequence :=
    if is_stored self w then exercise_sequence w
    else Z.max (exercise_sequence w) (default 0 (pk row)) in
  let type := if is_stored self w then "~" else "+" in
  (Ok row,
   with_exercise_sequence sequence
     (with_exercises rows (historical type row w :: exercise_history w) w)).

(** ** [class Exercise]: Django methods *)

(** [base.setting_set.all()] *)
Definition setting_set (base : ExerciseBase) (w : World) : list Setting :=
  filter (λ s, setting_exercise_base_id s = base_pk base) (settings w).

(** [self.exercise_base.<attribute>]: on an exercise without a base the
    attribute is looked up on [None]. *)
Definition exercise_base_attr {A} (self : Exercise) (attribute : string)
    (get : ExerciseBase → M A) : M A :=
  match exercise_base self with
  | Some base => get base
  | None => raise (AttributeError attribute)
  end.

(** [Exercise.save]: reset all cached infos. *)
Definition Exercise_save (self : Exercise) : M Exercise :=
  saved ← Model_save self;
  (* Cached template fragments *)
  all_languages ← gets languages;
  for_each all_languages (λ language,
    delete_template_fragment_cache "muscle-overview" (language_pk language);;
    delete_template_fragment_cache "exercise-overview" (language_pk language);;
    delete_template_fragment_cache "equipment-overview" (language_pk language));;
  (* Cached workouts *)
  related ← exercise_base_attr saved "setting_set" (λ base, gets (setting_set base));
  for_each related (λ setting,
    reset_workout_canonical_form (training_id (exerciseday (workout_set setting))));;
  mret saved.

(** [super().delete()]: an instance without primary key cannot be
    deleted; otherwise its row goes, the aliases that refer to it go with
    it, and [HistoricalRecords] adds the revision. *)
Definition Model_delete (self : Exercise) : M unit := λ w,
  match pk self with
  | None => (Raised AssertionError, w)
  | Some i =>
      let rows := filter (λ e, pk e ≠ Some i) (exercises w) in
      let kept := filter (λ a, alias_exercise_id a ≠ i) (aliases w) in
      (Ok tt,
       with_aliases kept
         (with_exercises rows (historical "-" self w :: exercise_history w) w))
  end.

(** [Exercise.delete]: reset all cached infos. *)
Definition Exercise_delete (self : Exercise) : M unit :=
  (* Cached template fragments *)
  all_languages ← gets languages;
  for_each all_languages (λ language,
    delete_template_fragment_cache "muscle-overview" (language_pk language);;
    delete_template_fragment_cache "exercise-overview" (language_pk language);;
    delete_template_fragment_cache "equipment-overview" (language_pk language));;
  (* Cached workouts; [training.pk] is the key held in [training_id] *)
  related ← exercise_base_attr self "setting_set" (λ base, gets (setting_set base));
  for_each related (λ setting,
    reset_workout_canonical_form (training_id (exerciseday (workout_set setting))));;
  Model_delete self.

(** ** [class Exercise]: properties exposing the exercise base *)

Definition Exercise_category (self : Exercise) : M ExerciseCategory :=
  exercise_base_attr self "category" (λ base, mret (base_category base)).

(** [base.exerciseimage_set] *)
Definition exerciseimage_set (base : ExerciseBase) (w : World)
  : list ExerciseImage :=
  filter (λ i, image_exercise_base_id i = base_pk base) (exercise_images w).

Definition Exercise_images (self : Exercise) : M (list ExerciseImage) :=
  exercise_base_attr self "exerciseimage_set" (λ base, gets (exerciseimage_set base)).

(** The [accepted()] query of submission models. *)
Definition accepted (qs : list ExerciseImage) : list ExerciseImage :=
  filter (λ i, status i = STATUS_ACCEPTED) qs.

Definition image_pk_le (i j : ExerciseImage) : Prop := image_pk i ≤ image_pk j.

Global Instance image_pk_le_dec : RelDecision image_pk_le.
Proof. intros i j. unfold image_pk_le. apply _. Defined.

(** [qs.first()]: the first row in primary-key order, [None] on an empty
    query. *)
Definition first (qs : list ExerciseImage) : option ExerciseImage :=
  head (merge_sort image_pk_le qs).

(** [Exercise.main_image]: the main image for the exercise or [None] if
    nothing is found. *)
Definition Exercise_main_image (self : Exercise) : M (option ExerciseImage) :=
  images ← Exercise_images self;
  mret (first (filter (λ i, is_main i = true) (accepted images))).

(** ** Requests, responses and the collaborators of the views *)

(** A [QueryDict]: the pairs of the query string in order. *)
Abbreviation QueryDict := (list (string * string)).

(** [QueryDict.get(key)]: the last value given for the key, or [None]. *)
Definition QueryDict_get (key : string) (q : QueryDict) : option string :=
  snd <$> last (filter (λ kv, kv.1 = key) q).

(** The fields a client submits for an exercise translation. *)
Record ExerciseData := {
  data_description : string;
  data_name : string;
  data_language : Z;
  data_exercise_base : option Z;
  data_license : Z;
  data_license_author : string;
}.

Record Request := {
  user : User;
  GET : QueryDict;
  data : ExerciseData;
}.

Definition has_perm (u : User) (perm : string) : bool :=
  bool_decide (perm ∈ user_permissions u).

(** The value of a column of an exercise. *)
Inductive FieldValue :=
  | VNone
  | VInt (n : Z)
  | VStr (s : string).

Global Instance FieldValue_eq_dec : EqDecision FieldValue.
Proof. solve_decision. Defined.

Record ModelChange := {
  field : string;
  old : FieldValue;
  new : FieldValue;
}.

Record ModelDelta := {
  changes : list ModelChange;
  changed_fields : list string;
  old_record : HistoricalExercise;
  new_record : HistoricalExercise;
}.

(** One element of the [history] list handed to [history/list2.html]. *)
Record HistoryRow := {
  record : HistoricalExercise;
  delta : ModelDelta;
}.

Inductive HttpResponse :=
  | Response (status_code : Z) (body : JSON)
  | Render (template_name : string) (history : list HistoryRow)
  | RedirectToLogin.

Definition HTTP_200_OK : Z := 200.
Definition HTTP_201_CREATED : Z := 201.
Definition HTTP_400_BAD_REQUEST : Z := 400.
Definition HTTP_403_FORBIDDEN : Z := 403.

(** What the views obtain from outside this code. *)
Record Collaborators := {
  (** Modelled from the spec: [load_item_languages] of
      [wger.utils.language] is not part of the sources at hand.  It is
      the "language-visibility resolver": for the exercise items and an
      optional language code it yields the visible languages. *)
  load_item_languages : option string → list Language;
  (** Modelled from the spec: [CanEditExercises] of
      [wger.exercises.api.permissions] is not part of the sources at
      hand.  It is the "permission-check capability" that gates writes. *)
  CanEditExercises : Request → bool;
  (** [django.utils.translation.gettext] *)
  gettext : string → string;
  (** [easy_thumbnails]: the configured aliases with their settings, in
      the order [aliases.all()] lists them *)
  thumbnail_aliases : list (string * JSON);
  (** [get_thumbnailer(image).get_thumbnail(options).url] *)
  get_thumbnail_url : ImageFile → JSON → string;
}.

Section Views.

Variable env : Collaborators.

Definition aliases_all : list string := fst <$> thumbnail_aliases env.

(** [aliases.get(alias)]: the settings of the alias, [None] if there is
    no such alias. *)
Definition aliases_get (target : string) : JSON :=
  match list_find (λ a, a.1 = target) (thumbnail_aliases env) with
  | Some (_, (_, options)) => options
  | None => JNull
  end.

(** *** [ExerciseViewSet.get_queryset] *)

(** [if value:] on a query parameter that may be absent. *)
Definition given (value : option string) : bool :=
  match value with Some v => truthy v | None => false end.

(** [qs.filter(exercise_base__<column>=n)] *)
Definition filter_base_column (column : ExerciseBase → Z) (n : Z)
    (qs : list Exercise) : list Exercise :=
  filter (λ e, column <$> exercise_base e = Some n) qs.

(** [qs.filter(exercise_base__<relation>__in=ids)]: the join with the
    many-to-many table yields a row for every related key among [ids]. *)
Definition filter_base_related_in (relation : ExerciseBase → list Z)
    (ids : list Z) (qs : list Exercise) : list Exercise :=
  e ← qs;
  match exercise_base e with
  | Some base => replicate (length (filter (λ k, k ∈ ids) (relation base))) e
  | None => []
  end.

(** Add additional filters for fields from exercise base. *)
Definition ExerciseViewSet_get_queryset (request : Request) : M (list Exercise) :=
  qs ← gets exercises;
  let category := QueryDict_get "category" (GET request) in
  let muscles := QueryDict_get "muscles" (GET request) in
  let muscles_secondary := QueryDict_get "muscles_secondary" (GET request) in
  let equipment := QueryDict_get "equipment" (GET request) in
  let license := QueryDict_get "license" (GET request) in
  qs ← (if given category then
          try_except
            (n ← py_int (default "" category);
             mret (filter_base_column (category_pk ∘ base_category) n qs))
            ValueError
            (logger_info ("Got " +:+ default "" category +:+ " as category ID");;
             mret qs)
        else mret qs);
  qs ← (if given muscles then
          try_except
            (ids ← mapM py_int (split "," (default "" muscles));
             mret (filter_base_related_in base_muscles ids qs))
            ValueError
            (logger_info ("Got " +:+ default "" muscles +:+ " as muscle IDs");;
             mret qs)
        else mret qs);
  qs ← (if given muscles_secondary then
          try_except
            (muscle_ids ← mapM py_int (split "," (default "" muscles_secondary));
             mret (filter_base_related_in base_muscles_secondary muscle_ids qs))
            ValueError
            (logger_info ("Got '" +:+ default "" muscles_secondary
                          +:+ "' as secondary muscle IDs");;
             mret qs)
        else mret qs);
  qs ← (if given equipment then
          try_except
            (ids ← mapM py_int (split "," (default "" equipment));
             mret (filter_base_related_in base_equipment ids qs))
            ValueError
            (logger_info ("Got " +:+ default "" equipment +:+ " as equipment IDs");;
             mret qs)
        else mret qs);
  qs ← (if given license then
          try_except
            (n ← py_int (default "" license);
             mret (filter_base_column base_license_id n qs))
            ValueError
            (logger_info ("Got " +:+ default "" license +:+ " as license ID");;
             mret qs)
        else mret qs);
  mret qs.

(** *** [search] *)

(** The rows of [Exercise] left-joined with [Alias]: an exercise comes
    with each of its aliases, or alone when it has none. *)
Definition join_alias (w : World) : list (Exercise * option string) :=
  e ← exercises w;
  match filter (λ a, pk e = Some (alias_exercise_id a)) (aliases w) with
  | [] => [(e, None)]
  | own => (λ a, (e, Some (alias a))) <$> own
  end.

(** [Q(name__icontains=q) | Q(alias__alias__icontains=q)] on a joined row *)
Definition name_lookup (q : string) (row : Exercise * option string) : bool :=
  icontains (name row.1) q
  || match row.2 with Some a => icontains a q | None => false end.

(** The value of [exercise_base__category__name], [None] for SQL NULL. *)
Definition category_name_of (e : Exercise) : option string :=
  (category_name ∘ base_category) <$> exercise_base e.

Definition option_compare (a b : option string) : comparison :=
  match a, b with
  | None, None => Eq
  | None, Some _ => Lt
  | Some _, None => Gt
  | Some x, Some y => String.compare x y
  end.

(** [ORDER BY category.name, exercise.name]: rows compare by category
    name first and by exercise name among equal category names. *)
Definition search_order (e1 e2 : Exercise) : Prop :=
  match option_compare (category_name_of e1) (category_name_of e2) with
  | Lt => True
  | Eq => String.compare (name e1) (name e2) ≠ Gt
  | Gt => False
  end.

Global Instance search_order_dec : RelDecision search_order.
Proof.
  intros e1 e2. unfold search_order.
  destruct (option_compare _ _); apply _.
Defined.

(** [Exercise.objects.filter(name_lookup).all()
      .filter(language__in=languages)
      .order_by('exercise_base__category__name', 'name').distinct()] *)
Definition search_queryset (q : string) (visible : list Language) (w : World)
  : list Exercise :=
  let matched := filter (λ row, name_lookup q row = true) (join_alias w) in
  let shown :=
    filter (λ row, language_pk (language row.1) ∈ language_pk <$> visible)
           matched in
  merge_sort search_order (remove_dups (fst <$> shown)).

(** The body of the loop of [search]: the suggestion for one exercise. *)
Definition exercise_json (exercise : Exercise) : M JSON :=
  main_image ← Exercise_main_image exercise;
  '(image, thumbnail) ←
    (if bool_decide (is_Some main_image) then
       image_obj ← Exercise_main_image exercise;
       match image_obj with
       | Some image_obj =>
           mret (JStr (url (image image_obj)),
                 JStr (get_thumbnail_url env (image image_obj)
                         (aliases_get "micro_cropped")))
       | None => raise (AttributeError "image")
       end
     else mret (JNull, JNull));
  category ← Exercise_category exercise;
  mret (JDict
          [("value", JStr (name exercise));
           ("data", JDict
              [("id", json_option JInt (pk exercise));
               ("name", JStr (name exercise));
               ("category", JStr (gettext env (category_name category)));
               ("image", image);
               ("image_thumbnail", thumbnail)])]).

(** Searches for exercises. *)
Definition search (request : Request) : M HttpResponse :=
  let q := QueryDict_get "term" (GET request) in
  let json_response : list (string * JSON) := [] in
  if given q then
    let languages :=
      load_item_languages env (QueryDict_get "language" (GET request)) in
    found ← gets (search_queryset (default "" q) languages);
    results ← mapM exercise_json found;
    mret (Response HTTP_200_OK
            (JDict (dict_set "suggestions" (JList results) json_response)))
  else
    mret (Response HTTP_200_OK (JDict json_response)).

(** *** [ExerciseImageViewSet.thumbnails] *)

(** [ExerciseImage.objects.get(pk=pk)] for the text of the URL: the ORM
    prepares the value compared with the key with [int], which raises
    [ValueError] on text that is not an integer. *)
Definition ExerciseImage_objects_get (pk : string) : M ExerciseImage :=
  key ← py_int pk;
  rows ← gets (λ w, filter (λ i, image_pk i = key) (exercise_images w));
  match rows with
  | [] => raise DoesNotExist
  | [row] => mret row
  | _ => raise MultipleObjectsReturned
  end.

(** Return a list of the image's thumbnails.  [pk] is the segment of the
    URL, as text.  The [return] inside the [except] clause is the [None]
    that skips the rest of the body. *)
Definition ExerciseImageViewSet_thumbnails (request : Request) (pk : string)
  : M HttpResponse :=
  looked_up ← try_except
                 (image ← ExerciseImage_objects_get pk; mret (Some image))
                 DoesNotExist
                 (mret None);
  match looked_up with
  | None => mret (Response HTTP_200_OK (JList []))
  | Some image_row =>
      let thumbnails :=
        foldl (λ thumbnails alias,
                 dict_set alias
                   (JDict
                      [("url", JStr (get_thumbnail_url env (image image_row)
                                       (aliases_get alias)));
                       ("settings", aliases_get alias)])
                   thumbnails)
              [] aliases_all in
      let thumbnails :=
        dict_set "original" (JStr (url (image image_row))) thumbnails in
      mret (Response HTTP_200_OK (JDict thumbnails))
  end.

(** *** [ExerciseTranslationViewSet]: creating a translation *)

(** [MinLengthValidator(limit)]: the error code when the value is
    shorter than the limit. *)
Definition MinLengthValidator (limit : nat) (value : string) : list string :=
  if (String.length value <? limit)%nat then ["min_length"] else [].

(** The validators declared on [Exercise.description]. *)
Definition description_validators : list (string → list string) :=
  [MinLengthValidator 40].

Definition description_max_length : nat := 2000.
Definition name_max_length : nat := 200.

Definition max_length_error (limit : nat) (value : string) : list string :=
  if (limit <? String.length value)%nat then ["max_length"] else [].

(** [ProhibitNullCharactersValidator] *)
Definition null_characters_error (value : string) : list string :=
  if existsb (λ c, ord c =? 0) (String.list_ascii_of_string value)
  then ["null_characters_not_allowed"] else [].

Definition find_pk {A} (key : A → Z) (i : Z) (rows : list A) : option A :=
  snd <$> list_find (λ row, key row = i) rows.

(** Modelled from the spec: the text fields of the serializer of
    [wger.exercises.api.serializers], which is not part of the sources at
    hand.  A text is validated without the white space around it; an
    empty text is answered with [blank], and any other one is checked
    against the validators that the model declares for the field, its
    length limit and the ban on null characters. *)
Definition char_field_errors (limit : nat)
    (validators : list (string → list string)) (value : string) : list string :=
  let value := strip isspace value in
  if negb (truthy value) then ["blank"]
  else ((validate ← validators; validate value)
        ++ max_length_error limit value
        ++ null_characters_error value)%list.

(** Modelled from the spec: the serializer of
    [wger.exercises.api.serializers] is not part of the sources at hand.
    A write is validated field by field against the declarations of the
    model, and the failing fields are enumerated with their errors. *)
Definition field_errors (d : ExerciseData) (w : World)
  : list (string * list string) :=
  let checked :=
    [("description",
      char_field_errors description_max_length description_validators
        (data_description d));
     ("name", char_field_errors name_max_length [] (data_name d));
     ("language",
      match find_pk language_pk (data_language d) (languages w) with
      | Some _ => []
      | None => ["does_not_exist"]
      end);
     ("exercise_base",
      match data_exercise_base d with
      | Some i => match find_pk base_pk i (exercise_bases w) with
                  | Some _ => []
                  | None => ["does_not_exist"]
                  end
      | None => []
      end)] in
  filter (λ fe, fe.2 ≠ []) checked.

Definition errors_json (errors : list (string * list string)) : JSON :=
  JDict ((λ fe, (fe.1, JList (JStr <$> fe.2))) <$> errors).

(** Modelled from the spec: the instance that the validated data
    describes; the texts are without the white space around them and the
    foreign keys have been resolved by the validation. *)
Definition validated_instance (d : ExerciseData) (w : World) : option Exercise :=
  lang ← find_pk language_pk (data_language d) (languages w);
  Some {| pk := None;
          description := strip isspace (data_description d);
          name := strip isspace (data_name d);
          creation_date := None;
          update_date := now w;
          language := lang;
          uuid := "";
          exercise_base :=
            i ← data_exercise_base d; find_pk base_pk i (exercise_bases w);
          license_id := data_license d;
          license_author := data_license_author d |}.

(** [actstream_action.send(actor, verb=..., action_object=...)] *)
Definition actstream_action_send (sender : User) (the_verb : string)
    (object : Exercise) : M unit :=
  modify (λ w,
    with_actions
      (actions w ++ [{| actor := username sender; verb := the_verb;
                        action_object := object |}])%list w).

(** [HistoryModes.CREATED.value] *)
Definition HistoryModes_CREATED : string := "created".

(** [ExerciseTranslationViewSet.perform_create]: save entry to activity
    stream.  [super().perform_create(serializer)] saves the instance. *)
Definition ExerciseTranslationViewSet_perform_create (request : Request)
    (unsaved : Exercise) : M Exercise :=
  saved ← Exercise_save unsaved;
  actstream_action_send (user request) HistoryModes_CREATED saved;;
  mret saved.

(** Modelled from the spec: the [create] handler of
    [CreateUpdateModelViewSet] ([wger.core.api.viewsets]) is not part of
    the sources at hand.  Creation is gated by the edit-permission check;
    a permission failure is an authorization error response, a validation
    failure is a field-error response enumerating the failing fields, and
    otherwise the instance is created. *)
Definition ExerciseTranslationViewSet_create (request : Request)
  : M HttpResponse :=
  if negb (CanEditExercises env request) then
    mret (Response HTTP_403_FORBIDDEN
            (JDict [("detail", JStr "permission_denied")]))
  else
    errors ← gets (field_errors (data request));
    match errors with
    | _ :: _ => mret (Response HTTP_400_BAD_REQUEST (errors_json errors))
    | [] =>
        unsaved ← gets (validated_instance (data request));
        match unsaved with
        | Some unsaved =>
            saved ← ExerciseTranslationViewSet_perform_create request unsaved;
            mret (Response HTTP_201_CREATED
                    (JDict [("id", json_option JInt (pk saved));
                            ("name", JStr (name saved));
                            ("description", JStr (description saved))]))
        | None =>
            mret (Response HTTP_400_BAD_REQUEST
                    (errors_json [("language", ["does_not_exist"])]))
        end
    end.

End Views.

(** ** [wger/exercises/views/history.py] *)

(** The history of the same exercise as [self]. *)
Definition history_of (self : HistoricalExercise) (w : World)
  : list HistoricalExercise :=
  filter (λ h, pk (instance h) = pk (instance self)) (exercise_history w).

(** [qs.order_by("history_date").last()]: a row with the latest date. *)
Definition latest (qs : list HistoricalExercise) : option HistoricalExercise :=
  foldl (λ best h,
           match best with
           | Some b => if history_date b <? history_date h then Some h else Some b
           | None => Some h
           end)
        None qs.

(** [entry.prev_record] of [simple_history]: the latest revision of the
    same exercise that is older than this one, or [None]. *)
Definition prev_record (self : HistoricalExercise) (w : World)
  : option HistoricalExercise :=
  latest (filter (λ h, history_date h < history_date self) (history_of self w)).

(** The columns that [diff_against] compares, by name and in the order
    of the fields of the model, foreign keys by primary key: the editable
    columns other than the key, which the revisions of one exercise
    share.  [auto_now_add] and [auto_now] make [creation_date] and
    [update_date] non-editable and [uuid] is declared [editable=False]:
    these three are not compared. *)
Definition model_to_dict (e : Exercise) : list (string * FieldValue) :=
  [("license", VInt (license_id e));
   ("license_author", VStr (license_author e));
   ("description", VStr (description e));
   ("name", VStr (name e));
   ("language", VInt (language_pk (language e)));
   ("exercise_base", from_option (VInt ∘ base_pk) VNone (exercise_base e))].

(** [d.get(k)] *)
Definition dict_get {A} (k : string) (d : list (string * A)) : option A :=
  (λ found, found.2.2) <$> list_find (λ kv, kv.1 = k) d.

(** [self.diff_against(old_history)] of [simple_history]: one change for
    every field whose value differs between the two revisions. *)
Definition diff_against (self old_history : HistoricalExercise) : ModelDelta :=
  let old_values := model_to_dict (instance old_history) in
  let current_values := model_to_dict (instance self) in
  let changed :=
    omap (λ '(name, new_value),
            match dict_get name old_values with
            | Some old_value =>
                if bool_decide (old_value = new_value) then None
                else Some {| field := name; old := old_value; new := new_value |}
            | None => None
            end)
         current_values in
  {| changes := changed;
     changed_fields := field <$> changed;
     old_record := old_history;
     new_record := self |}.

(** Generic view to list the history of the exercises, behind
    [@permission_required('exercises.change_exercise')]. *)
Definition overview2 (request : Request) : M HttpResponse :=
  if has_perm (user request) "exercises.change_exercise" then
    all_history ← gets exercise_history;
    out ← gets (λ w,
      omap (λ entry,
              match prev_record entry w with
              | Some previous =>
                  Some {| record := entry; delta := diff_against entry previous |}
              | None => None
              end)
           all_history);
    mret (Render "history/list2.html" out)
  else
    mret RedirectToLogin.

(** ** Notions used to state the properties *)

(** The cache after deleting a list of keys. *)
Definition remove_keys (ks : list CacheKey) (c : gmap CacheKey string)
  : gmap CacheKey string :=
  foldl (λ c k, delete k c) c ks.

Definition fragment_keys (ls : list Language) : list CacheKey :=
  l ← ls;
  [TemplateFragment "muscle-overview" (language_pk l);
   TemplateFragment "exercise-overview" (language_pk l);
   TemplateFragment "equipment-overview" (language_pk l)].

Definition workout_keys (ss : list Setting) : list CacheKey :=
  (λ s, WorkoutCanonical (training_id (exerciseday (workout_set s)))) <$> ss.


(** The integer-valued filter parameters of the exercise list, in the
    order [get_queryset] handles them. *)
Inductive FilterParameter :=
  | category_filter
  | muscles_filter
  | muscles_secondary_filter
  | equipment_filter
  | license_filter.

Global Instance FilterParameter_eq_dec : EqDecision FilterParameter.
Proof. solve_decision. Defined.

Definition filter_parameters : list FilterParameter :=
  [category_filter; muscles_filter; muscles_secondary_filter;
   equipment_filter; license_filter].

Definition parameter_name (p : FilterParameter) : string :=
  match p with
  | category_filter => "category"
  | muscles_filter => "muscles"
  | muscles_secondary_filter => "muscles_secondary"
  | equipment_filter => "equipment"
  | license_filter => "license"
  end.

(** The value of a parameter as a filter on the exercises: [None] when
    [int] rejects the value, or one of the comma-separated values. *)
Definition parsed_filter (p : FilterParameter) (v : string)
  : option (list Exercise → list Exercise) :=
  match p with
  | category_filter =>
      filter_base_column (category_pk ∘ base_category) <$> int v
  | muscles_filter =>
      filter_base_related_in base_muscles <$> mapM int (split "," v)
  | muscles_secondary_filter =>
      filter_base_related_in base_muscles_secondary <$> mapM int (split "," v)
  | equipment_filter =>
      filter_base_related_in base_equipment <$> mapM int (split "," v)
  | license_filter =>
      filter_base_column base_license_id <$> int v
  end.

(** What a parameter does to the query: its filter when it is given and
    accepted, nothing otherwise. *)
Definition filter_stage (request : Request) (qs : list Exercise)
    (p : FilterParameter) : list Exercise :=
  match QueryDict_get (parameter_name p) (GET request) with
  | Some v =>
      if truthy v then
        match parsed_filter p v with
        | Some apply => apply qs
        | None => qs
        end
      else qs
  | None => qs
  end.

(** The characters of a string. *)
Definition chars (s : string) : list ascii := String.list_ascii_of_string s.

(** The characters that can occur in a string that [int] accepts:
    digits, the white space it skips, a sign and the underscore. *)
Definition numeric_char (c : ascii) : Prop :=
  is_Some (digit_value c) ∨ int_isspace c = true
  ∨ c = "_"%char ∨ c = "+"%char ∨ c = "-"%char.

(** The request without any value for the parameter. *)
Definition without_parameter (p : FilterParameter) (request : Request) : Request :=
  {| user := user request;
     GET := filter (λ kv, kv.1 ≠ parameter_name p) (GET request);
     data := data request |}.

(** A revision has a previous revision when the history holds an older
    revision of the same exercise. *)
Definition has_previous (entry : HistoricalExercise) (w : World) : Prop :=
  ∃ older, older ∈ exercise_history w
           ∧ pk (instance older) = pk (instance entry)
           ∧ history_date older < history_date entry.

(** A column in which two states of an exercise differ: one of the
    columns that are compared, with different values, a foreign key by
    the key of the row it refers to. *)
Definition differs (column : string) (current previous : Exercise) : Prop :=
  (column = "license" ∧ license_id current ≠ license_id previous)
  ∨ (column = "license_author"
     ∧ license_author current ≠ license_author previous)
  ∨ (column = "description" ∧ description current ≠ description previous)
  ∨ (column = "name" ∧ name current ≠ name previous)
  ∨ (column = "language"
     ∧ language_pk (language current) ≠ language_pk (language previous))
  ∨ (column = "exercise_base"
     ∧ base_pk <$> exercise_base current ≠ base_pk <$> exercise_base previous).

(** An exercise that [search] is to list for a term: a stored exercise
    in one of the visible languages whose name or one of whose aliases
    contains the term, case-insensitively. *)
Definition matches (q : string) (visible : list Language) (w : World)
    (e : Exercise) : Prop :=
  e ∈ exercises w
  ∧ language_pk (language e) ∈ language_pk <$> visible
  ∧ (icontains (name e) q = true
     ∨ ∃ a, a ∈ aliases w ∧ pk e = Some (alias_exercise_id a)
            ∧ icontains (alias a) q = true).

(** The suggestion that [search] returns for an exercise with a base. *)
Definition suggestion (env : Collaborators) (w : World) (e : Exercise) : JSON :=
  let main :=
    base ← exercise_base e;
    first (filter (λ i, is_main i = true) (accepted (exerciseimage_set base w))) in
  JDict
    [("value", JStr (name e));
     ("data", JDict
        [("id", json_option JInt (pk e));
         ("name", JStr (name e));
         ("category",
          JStr (gettext env
                  (from_option (category_name ∘ base_category) "" (exercise_base e))));
         ("image", json_option (λ i, JStr (url (image i))) main);
         ("image_thumbnail",
          json_option (λ i, JStr (get_thumbnail_url env (image i)
                                    (aliases_get env "micro_cropped"))) main)])].

(** A computation that returns [a] and at most appends to the log. *)
Definition returns {A} (m : M A) (w : World) (a : A) : Prop :=
  ∃ lines, m w = (Ok a, with_log ((log w ++ lines)%list) w).

(** ** A small installation, for examples *)

Definition german : Language := {| language_pk := 1; short_name := "de" |}.
Definition english : Language := {| language_pk := 2; short_name := "en" |}.

Definition arms : ExerciseCategory := {| category_pk := 8; category_name := "Arms" |}.
Definition legs : ExerciseCategory := {| category_pk := 9; category_name := "Legs" |}.

Definition curl_base : ExerciseBase :=
  {| base_pk := 1; base_category := arms; base_muscles := [1; 13];
     base_muscles_secondary := [2]; base_equipment := [3];
     base_license_id := 2 |}.

Definition squat_base : ExerciseBase :=
  {| base_pk := 2; base_category := legs; base_muscles := [10];
     base_muscles_secondary := [8; 11]; base_equipment := [1];
     base_license_id := 1 |}.

Definition biceps_curl : Exercise :=
  {| pk := Some 1;
     description := "Hold the dumbbells and bend the arms until the forearms are vertical.";
     name := "Biceps curl";
     creation_date := Some 100; update_date := 100;
     language := english; uuid := "c788d643";
     exercise_base := Some curl_base;
     license_id := 2; license_author := "wger.de" |}.

Definition bizeps_curl : Exercise :=
  {| pk := Some 2;
     description := "Die Hanteln greifen und die Arme beugen, bis die Unterarme senkrecht sind.";
     name := "Bizeps Curls";
     creation_date := Some 110; update_date := 110;
     language := german; uuid := "6add5973";
     exercise_base := Some curl_base;
     license_id := 2; license_author := "wger.de" |}.

Definition squat : Exercise :=
  {| pk := Some 3;
     description := "Stand with the bar on the shoulders, bend the knees and stand up again.";
     name := "Squats";
     creation_date := Some 120; update_date := 150;
     language := english; uuid := "a2f5b6ef";
     exercise_base := Some squat_base;
     license_id := 1; license_author := "wger.de" |}.

(** An exercise without a base, as the declaration of the field allows. *)
Definition orphan : Exercise :=
  {| pk := Some 4;
     description := "Lie on the bench and press the bar up until the arms are straight.";
     name := "Bench press";
     creation_date := Some 130; update_date := 130;
     language := english; uuid := "5675ec40";
     exercise_base := None;
     license_id := 1; license_author := "wger.de" |}.

Definition curl_front : ExerciseImage :=
  {| image_pk := 1; image_exercise_base_id := 1;
     image := {| file_name := "curl-1.png"; url := "/media/exercise-images/1/curl-1.png" |};
     is_main := true; status := STATUS_ACCEPTED |}.

Definition curl_side : ExerciseImage :=
  {| image_pk := 2; image_exercise_base_id := 1;
     image := {| file_name := "curl-2.png"; url := "/media/exercise-images/1/curl-2.png" |};
     is_main := true; status := STATUS_PENDING |}.

Definition squat_setting : Setting :=
  {| setting_exercise_base_id := 2;
     workout_set := {| exerciseday := {| training_id := 7 |} |} |}.

Definition curl_setting : Setting :=
  {| setting_exercise_base_id := 1;
     workout_set := {| exerciseday := {| training_id := 5 |} |} |}.

Definition squat_created : HistoricalExercise :=
  {| history_id := 1; history_date := 120; history_type := "+";
     instance :=
       {| pk := Some 3; description := description squat; name := "Squat";
          creation_date := Some 120; update_date := 120;
          language := english; uuid := "a2f5b6ef";
          exercise_base := Some squat_base;
          license_id := 1; license_author := "wger.de" |} |}.

Definition squat_renamed : HistoricalExercise :=
  {| history_id := 2; history_date := 150; history_type := "~";
     instance := squat |}.

Definition installation : World :=
  {| languages := [german; english];
     exercise_bases := [curl_base; squat_base];
     exercises := [biceps_curl; bizeps_curl; squat];
     exercise_sequence := 3;
     aliases := [{| alias_exercise_id := 1; alias := "Dumbbell curl" |};
                 {| alias_exercise_id := 3; alias := "Knee bend" |}];
     exercise_images := [curl_front; curl_side];
     settings := [squat_setting; curl_setting];
     exercise_history := [squat_renamed; squat_created];
     actions := [];
     cache := {[ TemplateFragment "muscle-overview" 2 := "<ul>muscles</ul>";
                 TemplateFragment "exercise-overview" 1 := "<ul>exercises</ul>";
                 WorkoutCanonical 5 := "workout 5";
                 WorkoutCanonical 7 := "workout 7" ]};
     log := [];
     now := 200 |}.

(** The same installation with an exercise that has no base. *)
Definition installation_with_orphan : World :=
  with_exercises (exercises installation ++ [orphan])%list
                 (exercise_history installation) installation.

Definition admin : User :=
  {| username := "admin";
     user_permissions := ["exercises.change_exercise"; "exercises.add_exercise"] |}.

Definition no_data : ExerciseData :=
  {| data_description := ""; data_name := ""; data_language := 0;
     data_exercise_base := None; data_license := 0; data_license_author := "" |}.

Definition short_curl : ExerciseData :=
  {| data_description := "Bend the arms."; data_name := "Short curl";
     data_language := 2; data_exercise_base := Some 1;
     data_license := 2; data_license_author := "admin" |}.

Definition long_curl : ExerciseData :=
  {| data_description := description biceps_curl; data_name := "Long curl";
     data_language := 2; data_exercise_base := Some 1;
     data_license := 2; data_license_author := "admin" |}.

Definition post_request (d : ExerciseData) : Request :=
  {| user := admin; GET := []; data := d |}.

Definition get_request (params : QueryDict) : Request :=
  {| user := admin; GET := params; data := no_data |}.

Definition site : Collaborators :=
  {| load_item_languages := λ code,
       match code with
       | Some "de" => [german]
       | _ => [english]
       end;
     CanEditExercises := λ request, has_perm (user request) "exercises.add_exercise";
     gettext := λ s, s;
     thumbnail_aliases :=
       [("micro_cropped", JDict [("size", JList [JInt 30; JInt 30]); ("crop", JStr "smart")]);
        ("small", JDict [("size", JList [JInt 200; JInt 200])])];
     get_thumbnail_url := λ file options,
       match options with
       | JDict (("size", JList [JInt width; _]) :: _) =>
           url file +:+ "." +:+ (if width =? 30 then "30x30" else "200x200") +:+ ".png"
       | _ => url file
       end |}.

(** ** Further code of the exercise model and of the views *)

(** *** [class Exercise]: the other properties and [set_author] *)

Definition Exercise_muscles (self : Exercise) : M (list Z) :=
  exercise_base_attr self "muscles" (λ base, mret (base_muscles base)).

Definition Exercise_muscles_secondary (self : Exercise) : M (list Z) :=
  exercise_base_attr self "muscles_secondary"
    (λ base, mret (base_muscles_secondary base)).

Definition Exercise_equipment (self : Exercise) : M (list Z) :=
  exercise_base_attr self "equipment" (λ base, mret (base_equipment base)).

Section Variations.

(** The [variations] foreign key of [ExerciseBase], a column that is not
    among those of the record above: the variation group of a base, if
    it has one. *)
Variable variations_id : ExerciseBase → option Z.

(** [Exercise.variations]: the variations for this exercise in the same
    language. *)
Definition Exercise_variations (self : Exercise) : M (list Exercise) :=
  group ← exercise_base_attr self "variations" (λ base, mret (variations_id base));
  match group with
  | Some group =>
      gets (λ w,
        variation ← filter (λ base, variations_id base = Some group)
                           (exercise_bases w);
        filter (λ exercise,
                  base_pk <$> exercise_base exercise = Some (base_pk variation)
                  ∧ language_pk (language exercise) = language_pk (language self))
               (exercises w))
  | None => mret []
  end.

End Variations.

(** A mail to the administrators: subject, and the message as its
    template with the arguments that [format] fills in. *)
Record AdminMail := {
  mail_subject : string;
  mail_template : string;
  mail_arguments : list string;
}.

Definition with_license_author (author : string) (self : Exercise) : Exercise :=
  {| pk := pk self; description := description self; name := name self;
     creation_date := creation_date self; update_date := update_date self;
     language := language self; uuid := uuid self;
     exercise_base := exercise_base self; license_id := license_id self;
     license_author := author |}.

Definition double_quote : string := String (ascii_of_nat 34) EmptyString.

Section Author.

Variable env : Collaborators.

(** [request.get_host()] *)
Variable get_host : Request → string.

(** [Exercise.set_author]: set the author when creating an exercise.
    The changed instance is returned in place of the mutation of [self],
    with the mails handed to [mail.mail_admins]. *)
Definition Exercise_set_author (self : Exercise) (request : Request)
  : Exercise * list AdminMail :=
  if has_perm (user request) "exercises.add_exercise" then
    (if negb (truthy (license_author self)) then
       with_license_author (default "" (head (split ":" (get_host request)))) self
     else self,
     [])
  else
    let self :=
      if negb (truthy (license_author self)) then
        with_license_author (username (user request)) self
      else self in
    let subject := gettext env "New user submitted exercise" in
    let message :=
      gettext env ("The user {0} submitted a new exercise " +:+ double_quote
                   +:+ "{1}" +:+ double_quote +:+ ".") in
    (self,
     [{| mail_subject := subject;
         mail_template := message;
         mail_arguments := [username (user request); name self] |}]).

End Author.

(** *** [ExerciseTranslationViewSet.perform_update] *)

(** [HistoryModes.UPDATED.value] *)
Definition HistoryModes_UPDATED : string := "updated".

(** Save entry to activity stream.  As in the source, the instance is
    saved through [super().perform_create(serializer)]. *)
Definition ExerciseTranslationViewSet_perform_update (request : Request)
    (changed : Exercise) : M Exercise :=
  saved ← Exercise_save changed;
  actstream_action_send (user request) HistoryModes_UPDATED saved;;
  mret saved.

(** *** [ExerciseCommentViewSet.get_queryset] *)

Record ExerciseComment := {
  comment_pk : Z;
  comment_exercise_id : Z;
  comment : string;
}.

Section Comments.

(** [ExerciseComment.objects.all()], a table that is not part of the
    world above. *)
Variable comments : list ExerciseComment.

(** Filter by language for exercise comments.  The ORM prepares the
    value compared with the key of the language with [int]. *)
Definition ExerciseCommentViewSet_get_queryset (request : Request)
  : M (list ExerciseComment) :=
  let qs := comments in
  let language_param := QueryDict_get "language" (GET request) in
  if given language_param then
    key ← py_int (default "" language_param);
    in_language ← gets (λ w,
      filter (λ e, language_pk (language e) = key) (exercises w));
    mret (filter (λ c, Some (comment_exercise_id c) ∈ pk <$> in_language) comments)
  else mret qs.

End Comments.

(** *** [overview] of the history *)

Inductive StreamResponse :=
  | RenderStream (template_name : string) (stream : list Action)
                 (modes : list (string * string))
  | StreamRedirectToLogin.

Section Overview.

(** [HistoryModes.__members__]: the names of the modes with their values. *)
Variable HistoryModes_members : list (string * string).

(** Generic view to list the history of the exercises, behind
    [@permission_required('exercises.change_exercise')].  The stream is
    [Action.objects.all()], the newest entry first. *)
Definition overview (request : Request) : M StreamResponse :=
  if has_perm (user request) "exercises.change_exercise" then
    stream ← gets (λ w, reverse (actions w));
    mret (RenderStream "history/list.html" stream HistoryModes_members)
  else
    mret StreamRedirectToLogin.

End Overview.

(** ** Further notions used to state the properties *)

(** Every stored exercise has a primary key, and no two share one. *)
Definition well_keyed (w : World) : Prop :=
  NoDup (pk <$> exercises w) ∧ ∀ e, e ∈ exercises w → is_Some (pk e).

(** The keys that [Exercise.save] and [Exercise.delete] remove from the
    cache. *)
Definition removed_keys (self : Exercise) (w : World) : list CacheKey :=
  (fragment_keys (languages w)
   ++ from_option (λ base, workout_keys (setting_set base w)) [] (exercise_base self))%list.

(** The message that [get_queryset] logs for a rejected value. *)
Definition rejection_message (p : FilterParameter) (v : string) : string :=
  match p with
  | category_filter => "Got " +:+ v +:+ " as category ID"
  | muscles_filter => "Got " +:+ v +:+ " as muscle IDs"
  | muscles_secondary_filter => "Got '" +:+ v +:+ "' as secondary muscle IDs"
  | equipment_filter => "Got " +:+ v +:+ " as equipment IDs"
  | license_filter => "Got " +:+ v +:+ " as license ID"
  end.

(** What a parameter adds to the log: a line when it is given and
    rejected, nothing otherwise. *)
Definition stage_log (request : Request) (p : FilterParameter) : list string :=
  match QueryDict_get (parameter_name p) (GET request) with
  | Some v =>
      if truthy v then
        match parsed_filter p v with
        | Some _ => []
        | None => [rejection_message p v]
        end
      else []
  | None => []
  end.

(** An exercise passes the filter of an accepted value when its base has
    the requested category or license, or one of the requested muscles
    or pieces of equipment. *)
Definition meets (p : FilterParameter) (v : string) (e : Exercise) : Prop :=
  match p with
  | category_filter =>
      ∃ n, int v = Some n
           ∧ (category_pk ∘ base_category) <$> exercise_base e = Some n
  | license_filter =>
      ∃ n, int v = Some n ∧ base_license_id <$> exercise_base e = Some n
  | muscles_filter =>
      ∃ ids base k, mapM int (split "," v) = Some ids
                    ∧ exercise_base e = Some base
                    ∧ k ∈ base_muscles base ∧ k ∈ ids
  | muscles_secondary_filter =>
      ∃ ids base k, mapM int (split "," v) = Some ids
                    ∧ exercise_base e = Some base
                    ∧ k ∈ base_muscles_secondary base ∧ k ∈ ids
  | equipment_filter =>
      ∃ ids base k, mapM int (split "," v) = Some ids
                    ∧ exercise_base e = Some base
                    ∧ k ∈ base_equipment base ∧ k ∈ ids
  end.

(** A parameter lets an exercise through when it is absent, empty or
    rejected, or when the exercise meets its value. *)
Definition passes (request : Request) (e : Exercise) (p : FilterParameter) : Prop :=
  ∀ v, QueryDict_get (parameter_name p) (GET request) = Some v →
       truthy v = true → is_Some (parsed_filter p v) → meets p v e.

(** The many-to-many relation that a list parameter filters on. *)
Definition related_keys (p : FilterParameter) (base : ExerciseBase) : list Z :=
  match p with
  | muscles_filter => base_muscles base
  | muscles_secondary_filter => base_muscles_secondary base
  | equipment_filter => base_equipment base
  | category_filter | license_filter => []
  end.

(** ** Further examples *)

(** A translation that has not been saved yet. *)
Definition front_squat : Exercise :=
  {| pk := None;
     description := "Rest the bar on the front of the shoulders and squat down.";
     name := "Front squat";
     creation_date := None; update_date := 0;
     language := english; uuid := "0c1f9a2e";
     exercise_base := Some squat_base;
     license_id := 1; license_author := "" |}.

(** A user without any permission. *)
Definition guest : User := {| username := "guest"; user_permissions := [] |}.

(** The squat and the curl are variations of one another in this
    grouping. *)
Definition one_group (base : ExerciseBase) : option Z := Some 1.

Definition local_host (request : Request) : string := "localhost:8000".

(** The squat under a new name, as an update submits it. *)
Definition renamed_squat : Exercise :=
  {| pk := Some 3;
     description := description squat;
     name := "Back squat";
     creation_date := creation_date squat; update_date := update_date squat;
     language := english; uuid := uuid squat;
     exercise_base := Some squat_base;
     license_id := 1; license_author := "wger.de" |}.

Definition example_modes : list (string * string) :=
  [("CREATED", "created"); ("UPDATED", "updated")].

Definition example_comments : list ExerciseComment :=
  [{| comment_pk := 1; comment_exercise_id := 1; comment := "Keep the elbows still" |};
   {| comment_pk := 2; comment_exercise_id := 2; comment := "Ellbogen ruhig halten" |};
   {| comment_pk := 3; comment_exercise_id := 3; comment := "Keep the back straight" |}].

(** * Properties *)

(** ** The cache after a run of deletions *)

Lemma lookup_remove_keys ks (c : gmap CacheKey string) k :
  remove_keys ks c !! k = if decide (k ∈ ks) then None else c !! k.
Proof.
  revert c. induction ks as [|k' ks IH]; intros c.
  - case_decide as Hin; [by apply elem_of_nil in Hin | done].
  - change (remove_keys (k' :: ks) c) with (remove_keys ks (delete k' c)).
    rewrite IH. destruct (decide (k ∈ ks)) as [Hin|Hout].
    + by rewrite decide_True by (by right).
    + destruct (decide (k = k')) as [->|Hne].
      * rewrite decide_True by left. apply lookup_delete_eq.
      * rewrite decide_False by (intros [?|?]%elem_of_cons; done).
        by apply lookup_delete_ne.
Qed.

Lemma remove_keys_app ks1 ks2 (c : gmap CacheKey string) :
  remove_keys (ks1 ++ ks2) c = remove_keys ks2 (remove_keys ks1 c).
Proof. apply foldl_app. Qed.

Lemma with_cache_same w : with_cache (cache w) w = w.
Proof. by destruct w. Qed.

Lemma with_cache_twice c c' w : with_cache c (with_cache c' w) = with_cache c w.
Proof. done. Qed.

Lemma M_bind_run {A B} (m : M A) (f : A → M B) w :
  (m ≫= f) w =
    match m w with
    | (Ok a, w') => f a w'
    | (Raised e, w') => (Raised e, w')
    end.
Proof. done. Qed.

(** The loop over the languages deletes the three fragments of each. *)
Lemma for_each_fragments ls w :
  for_each ls (λ language,
    delete_template_fragment_cache "muscle-overview" (language_pk language);;
    delete_template_fragment_cache "exercise-overview" (language_pk language);;
    delete_template_fragment_cache "equipment-overview" (language_pk language)) w
  = (Ok tt, with_cache (remove_keys (fragment_keys ls) (cache w)) w).
Proof.
  revert w. induction ls as [|l ls IH]; intros w.
  - simpl. by rewrite with_cache_same.
  - cbn [for_each].
    match goal with |- context [for_each ls ?b] => remember b as body end.
    repeat (rewrite M_bind_run; cbn -[for_each remove_keys fragment_keys]).
    rewrite IH. done.
Qed.

(** The loop over the settings resets the workout of each. *)
Lemma for_each_workouts ss w :
  for_each ss (λ setting,
    reset_workout_canonical_form
      (training_id (exerciseday (workout_set setting)))) w
  = (Ok tt, with_cache (remove_keys (workout_keys ss) (cache w)) w).
Proof.
  revert w. induction ss as [|s ss IH]; intros w.
  - simpl. by rewrite with_cache_same.
  - cbn [for_each].
    match goal with |- context [for_each ss ?b] => remember b as body end.
    repeat (rewrite M_bind_run; cbn -[for_each remove_keys fragment_keys]).
    rewrite IH. done.
Qed.

(** [Exercise.save] in closed form. *)
Lemma Exercise_save_run self w :
  let saved := (Model_save self w).1 in
  let w1 := (Model_save self w).2 in
  let w2 := with_cache (remove_keys (fragment_keys (languages w)) (cache w1)) w1 in
  Exercise_save self w =
    match exercise_base self with
    | Some base =>
        (Ok (stamped self w),
         with_cache (remove_keys (workout_keys (setting_set base w)) (cache w2)) w2)
    | None => (Raised (AttributeError "setting_set"), w2)
    end.
Proof.
  unfold Exercise_save. unfold mbind at 1, M_bind at 1.
  cbn [Model_save]. unfold mbind at 1, M_bind at 1. cbn [gets].
  unfold mbind at 1, M_bind at 1. rewrite for_each_fragments.
  unfold exercise_base_attr. cbn [stamped exercise_base].
  destruct (exercise_base self) as [base|]; [|done].
  unfold mbind at 1, M_bind at 1. cbn [gets].
  unfold mbind at 1, M_bind at 1. rewrite for_each_workouts. done.
Qed.

(** [Exercise.delete] up to the call of [super().delete()]. *)
Lemma Exercise_delete_run self w :
  let w2 := with_cache (remove_keys (fragment_keys (languages w)) (cache w)) w in
  Exercise_delete self w =
    match exercise_base self with
    | Some base =>
        Model_delete self
          (with_cache (remove_keys (workout_keys (setting_set base w)) (cache w2)) w2)
    | None => (Raised (AttributeError "setting_set"), w2)
    end.
Proof.
  unfold Exercise_delete. unfold mbind at 1, M_bind at 1. cbn [gets].
  unfold mbind at 1, M_bind at 1. rewrite for_each_fragments.
  unfold exercise_base_attr.
  destruct (exercise_base self) as [base|]; [|done].
  unfold mbind at 1, M_bind at 1. cbn [gets].
  unfold mbind at 1, M_bind at 1. rewrite for_each_workouts. done.
Qed.

Lemma Model_delete_cache self w : cache (Model_delete self w).2 = cache w.
Proof. unfold Model_delete. by destruct (pk self). Qed.

(** ** Saving and deleting an exercise *)

(** C3.  After [Exercise.save], whether or not it goes on to raise, none
    of the fragments muscle-overview, exercise-overview and
    equipment-overview is cached for any language known to the system. *)
Theorem save_invalidates_overview_fragments self w language fragment :
  language ∈ languages w →
  fragment ∈ ["muscle-overview"; "exercise-overview"; "equipment-overview"] →
  cache (Exercise_save self w).2 !! TemplateFragment fragment (language_pk language)
  = None.
Proof.
  intros Hlanguage Hfragment.
  assert (TemplateFragment fragment (language_pk language)
          ∈ fragment_keys (languages w)) as Hkey.
  { unfold fragment_keys. apply list_elem_of_bind. exists language.
    split; [|done]. set_unfold. naive_solver. }
  rewrite Exercise_save_run.
  destruct (exercise_base self) as [base|]; cbn [snd cache with_cache].
  - rewrite lookup_remove_keys. case_decide; [done|].
    rewrite lookup_remove_keys. by rewrite decide_True.
  - rewrite lookup_remove_keys. by rewrite decide_True.
Qed.

Lemma save_invalidates_overview_fragments_witness :
  cache installation !! TemplateFragment "muscle-overview" 2 = Some "<ul>muscles</ul>"
  ∧ cache (Exercise_save biceps_curl installation).2
      !! TemplateFragment "muscle-overview" (language_pk english) = None.
Proof.
  split; [by vm_compute|].
  apply (save_invalidates_overview_fragments biceps_curl installation english).
  - apply list_elem_of_In. simpl. auto.
  - apply list_elem_of_In. simpl. auto.
Defined.

(** C4.  After [Exercise.delete], the canonical form of every workout
    that a setting of the exercise's base leads to (setting, set,
    exercise day, training) is no longer cached. *)
Theorem delete_resets_workouts_of_base self w base setting :
  exercise_base self = Some base →
  setting ∈ settings w →
  setting_exercise_base_id setting = base_pk base →
  cache (Exercise_delete self w).2
    !! WorkoutCanonical (training_id (exerciseday (workout_set setting)))
  = None.
Proof.
  intros Hbase Hsetting Hrefers.
  rewrite Exercise_delete_run, Hbase, Model_delete_cache.
  cbn [cache with_cache]. rewrite lookup_remove_keys, decide_True; [done|].
  unfold workout_keys. apply list_elem_of_fmap. exists setting. split; [done|].
  unfold setting_set. by apply list_elem_of_filter.
Qed.

Lemma delete_resets_workouts_of_base_witness :
  cache installation !! WorkoutCanonical 7 = Some "workout 7"
  ∧ cache (Exercise_delete squat installation).2 !! WorkoutCanonical 7 = None.
Proof.
  split; [by vm_compute|].
  apply (delete_resets_workouts_of_base squat installation squat_base squat_setting).
  - reflexivity.
  - apply list_elem_of_In. simpl. auto.
  - reflexivity.
Defined.

(** C9.  [Exercise.save] and [Exercise.delete] raise the attribute error
    of the dereference exactly when the exercise has no base: without a
    base neither completes, and with a base that error cannot occur;
    [save] then completes, and [delete] completes once the instance has
    a primary key. *)
Theorem save_and_delete_need_base self w :
  ((Exercise_save self w).1 = Raised (AttributeError "setting_set")
     ↔ exercise_base self = None)
  ∧ ((Exercise_delete self w).1 = Raised (AttributeError "setting_set")
     ↔ exercise_base self = None)
  ∧ ((∃ a, (Exercise_save self w).1 = Raised (AttributeError a))
     ↔ exercise_base self = None)
  ∧ ((∃ a, (Exercise_delete self w).1 = Raised (AttributeError a))
     ↔ exercise_base self = None)
  ∧ ((∃ saved, (Exercise_save self w).1 = Ok saved) ↔ is_Some (exercise_base self))
  ∧ ((Exercise_delete self w).1 = Ok tt
     ↔ is_Some (exercise_base self) ∧ is_Some (pk self)).
Proof.
  rewrite Exercise_save_run, Exercise_delete_run. unfold Model_delete.
  destruct (exercise_base self) as [base|], (pk self) as [i|]; cbn [fst].
  all: repeat split; intros; try done; try naive_solver.
  all: try (by eexists).
Qed.

(** On the example installation: saving the exercise without a base
    stores it and clears the fragments, then raises; deleting it raises
    before the row is removed; deleting the squat removes the row, keeps
    the other two and records the deletion. *)
Example save_orphan :
  let after := Exercise_save orphan installation in
  after.1 = Raised (AttributeError "setting_set")
  ∧ length (exercises after.2) = 4%nat
  ∧ cache after.2 !! TemplateFragment "muscle-overview" 2 = None
  ∧ cache after.2 !! WorkoutCanonical 7 = Some "workout 7".
Proof. by vm_compute. Qed.

Example delete_orphan :
  let after := Exercise_delete orphan installation_with_orphan in
  after.1 = Raised (AttributeError "setting_set")
  ∧ exercises after.2 = exercises installation_with_orphan.
Proof. by vm_compute. Qed.

Example delete_squat :
  let after := Exercise_delete squat installation in
  after.1 = Ok tt
  ∧ exercises after.2 = [biceps_curl; bizeps_curl]
  ∧ alias <$> aliases after.2 = ["Dumbbell curl"]
  ∧ history_type <$> exercise_history after.2 = ["-"; "~"; "+"]
  ∧ cache after.2 !! WorkoutCanonical 7 = None
  ∧ cache after.2 !! WorkoutCanonical 5 = Some "workout 5".
Proof. by vm_compute. Qed.

(** ** [search] without a term *)

(** C1, as stated, fails: without a term the body is the empty object,
    which has no [suggestions] key. *)
Lemma search_without_term_has_no_suggestions :
  QueryDict_get "term" (GET (get_request [("language", "en")])) = None
  ∧ search site (get_request [("language", "en")]) installation
    = (Ok (Response HTTP_200_OK (JDict [])), installation)
  ∧ (search site (get_request [("language", "en")]) installation).1
    ≠ Ok (Response HTTP_200_OK (JDict [("suggestions", JList [])])).
Proof. repeat split. by vm_compute. Qed.

(** C1, amended.  When the [term] parameter is absent or empty, [search]
    answers with success status and the empty JSON object, and touches
    nothing. *)
Theorem search_without_term env request w :
  QueryDict_get "term" (GET request) = None
  ∨ QueryDict_get "term" (GET request) = Some "" →
  search env request w = (Ok (Response HTTP_200_OK (JDict [])), w).
Proof. unfold search. by intros [-> | ->]. Qed.

Lemma search_without_term_witness :
  search site (get_request [("term", "")]) installation
  = (Ok (Response HTTP_200_OK (JDict [])), installation).
Proof.
  apply (search_without_term site (get_request [("term", "")]) installation).
  right. reflexivity.
Defined.

(** ** [thumbnails] of an unknown image *)

Lemma filter_none {A} (P : A → Prop) `{∀ x, Decision (P x)} (l : list A) :
  (∀ x, x ∈ l → ¬ P x) → filter P l = [].
Proof.
  induction l as [|x l IH]; intros Hnone; [done|].
  rewrite filter_cons_False by (apply Hnone; left).
  apply IH. intros y Hy. apply Hnone. by right.
Qed.

Lemma py_int_run s w :
  py_int s w = match int s with
               | Some n => (Ok n, w)
               | None => (Raised ValueError, w)
               end.
Proof. unfold py_int. by destruct (int s). Qed.

(** [thumbnails] up to the lookup of the image. *)
Lemma thumbnails_run env request pk w :
  ExerciseImageViewSet_thumbnails env request pk w
  = match int pk with
    | None => (Raised ValueError, w)
    | Some key =>
        match filter (λ i, image_pk i = key) (exercise_images w) with
        | [] => (Ok (Response HTTP_200_OK (JList [])), w)
        | [image_row] =>
            (Ok (Response HTTP_200_OK
                   (JDict
                      (dict_set "original" (JStr (url (image image_row)))
                         (foldl (λ thumbnails alias,
                                   dict_set alias
                                     (JDict
                                        [("url",
                                          JStr (get_thumbnail_url env
                                                  (image image_row)
                                                  (aliases_get env alias)));
                                         ("settings", aliases_get env alias)])
                                     thumbnails)
                                [] (aliases_all env))))), w)
        | _ => (Raised MultipleObjectsReturned, w)
        end
    end.
Proof.
  unfold ExerciseImageViewSet_thumbnails. rewrite M_bind_run.
  unfold try_except. rewrite M_bind_run. unfold ExerciseImage_objects_get.
  rewrite M_bind_run, py_int_run. destruct (int pk) as [key|]; [|done].
  rewrite M_bind_run. cbn [gets].
  by destruct (filter _ (exercise_images w)) as [|image_row [|other rows]].
Qed.



(** For a known image the body is the mapping from the alias names to
    the thumbnails, with the original image. *)
Example thumbnails_of_curl_front :
  ExerciseImageViewSet_thumbnails site (get_request []) "1" installation
  = (Ok (Response HTTP_200_OK
           (JDict
              [("micro_cropped",
                JDict [("url", JStr "/media/exercise-images/1/curl-1.png.30x30.png");
                       ("settings",
                        JDict [("size", JList [JInt 30; JInt 30]);
                               ("crop", JStr "smart")])]);
               ("small",
                JDict [("url", JStr "/media/exercise-images/1/curl-1.png.200x200.png");
                       ("settings", JDict [("size", JList [JInt 200; JInt 200])])]);
               ("original", JStr "/media/exercise-images/1/curl-1.png")])),
     installation).
Proof. by vm_compute. Qed.


(** ** [Exercise.main_image] *)

Global Instance image_pk_le_total : Total image_pk_le.
Proof. intros i j. unfold image_pk_le. lia. Qed.

Global Instance image_pk_le_trans : Transitive image_pk_le.
Proof. intros i j k. unfold image_pk_le. lia. Qed.

Lemma first_None qs : first qs = None ↔ qs = [].
Proof.
  unfold first. split.
  - intros Hhead. apply Permutation_nil_r.
    rewrite <-(merge_sort_Permutation image_pk_le qs).
    by destruct (merge_sort image_pk_le qs).
  - by intros ->.
Qed.

Lemma first_Some qs i :
  first qs = Some i → i ∈ qs ∧ ∀ j, j ∈ qs → image_pk i ≤ image_pk j.
Proof.
  unfold first. intros Hhead.
  pose proof (StronglySorted_merge_sort image_pk_le qs) as Hsorted.
  pose proof (merge_sort_Permutation image_pk_le qs) as Hperm.
  destruct (merge_sort image_pk_le qs) as [|i' rest]; simplify_eq/=.
  split.
  - rewrite <-Hperm. left.
  - intros j Hj. rewrite <-Hperm in Hj.
    apply elem_of_cons in Hj as [-> | Hj]; [lia|].
    apply StronglySorted_inv in Hsorted as [_ Hall].
    rewrite Forall_forall in Hall. by apply Hall.
Qed.

(** C10, as stated, fails: on an exercise without a base the property
    raises, because [images] dereferences the base. *)
Lemma main_image_raises_without_base :
  orphan ∈ exercises installation_with_orphan
  ∧ Exercise_main_image orphan installation_with_orphan
    = (Raised (AttributeError "exerciseimage_set"), installation_with_orphan).
Proof. split; [|done]. apply list_elem_of_In. simpl. auto 6. Qed.

(** C10, amended.  For every exercise that references a base,
    [main_image] does not raise and changes nothing; it is [None] exactly
    when the base has no accepted image flagged [is_main], and otherwise
    it is an accepted image of the base flagged [is_main], the first of
    them in the order of the query (by primary key). *)
Theorem main_image_of_exercise_with_base self w base :
  exercise_base self = Some base →
  ∃ found,
    Exercise_main_image self w = (Ok found, w)
    ∧ (found = None ↔
         ∀ i, i ∈ exercise_images w → image_exercise_base_id i = base_pk base →
              status i = STATUS_ACCEPTED → is_main i = false)
    ∧ (∀ i, found = Some i →
         i ∈ exercise_images w ∧ image_exercise_base_id i = base_pk base
         ∧ status i = STATUS_ACCEPTED ∧ is_main i = true
         ∧ ∀ j, j ∈ exercise_images w → image_exercise_base_id j = base_pk base →
                status j = STATUS_ACCEPTED → is_main j = true →
                image_pk i ≤ image_pk j).
Proof.
  intros Hbase.
  set (candidates :=
         filter (λ i, is_main i = true) (accepted (exerciseimage_set base w))).
  assert (∀ i, i ∈ candidates ↔
               i ∈ exercise_images w ∧ image_exercise_base_id i = base_pk base
               ∧ status i = STATUS_ACCEPTED ∧ is_main i = true) as Hcandidates.
  { intros i. unfold candidates, accepted, exerciseimage_set.
    rewrite !list_elem_of_filter. naive_solver. }
  exists (first candidates). split; [|split; [split|]].
  - unfold Exercise_main_image, Exercise_images, exercise_base_attr.
    by rewrite Hbase.
  - intros Hnone%first_None i Hi Hof Haccepted.
    destruct (is_main i) eqn:Hmain; [|done].
    assert (i ∈ candidates) as Hin by by apply Hcandidates.
    rewrite Hnone in Hin. by apply elem_of_nil in Hin.
  - intros Hnone. apply first_None.
    apply filter_none. intros i Hi Hmain.
    assert (i ∈ candidates) as Hin by by apply list_elem_of_filter.
    apply Hcandidates in Hin as (? & ? & ? & _).
    rewrite Hnone in Hmain; done.
  - intros i [Hin Hleast]%first_Some.
    apply Hcandidates in Hin as (? & ? & ? & ?). split_and!; [done..|].
    intros j ? ? ? ?. by apply Hleast, Hcandidates.
Qed.

Lemma main_image_of_exercise_with_base_witness :
  ∃ found,
    Exercise_main_image biceps_curl installation = (Ok found, installation)
    ∧ (found = None ↔
         ∀ i, i ∈ exercise_images installation →
              image_exercise_base_id i = base_pk curl_base →
              status i = STATUS_ACCEPTED → is_main i = false)
    ∧ (∀ i, found = Some i →
         i ∈ exercise_images installation
         ∧ image_exercise_base_id i = base_pk curl_base
         ∧ status i = STATUS_ACCEPTED ∧ is_main i = true
         ∧ ∀ j, j ∈ exercise_images installation →
                image_exercise_base_id j = base_pk curl_base →
                status j = STATUS_ACCEPTED → is_main j = true →
                image_pk i ≤ image_pk j).
Proof.
  apply (main_image_of_exercise_with_base biceps_curl installation curl_base).
  reflexivity.
Defined.

(** On the example installation the accepted main image is chosen, the
    pending one is not. *)
Example main_image_of_biceps_curl :
  Exercise_main_image biceps_curl installation = (Ok (Some curl_front), installation).
Proof. by vm_compute. Qed.

(** ** What [int] accepts *)

Lemma chars_rev_app s1 s2 :
  chars (String.rev_app s1 s2) = (reverse (chars s1) ++ chars s2)%list.
Proof.
  revert s2. induction s1 as [|a s1 IH]; intros s2; [done|].
  cbn [String.rev_app]. rewrite IH. cbn [chars String.list_ascii_of_string].
  by rewrite reverse_cons, <-(assoc_L (++)).
Qed.

Lemma elem_of_chars_rev c s : c ∈ chars (String.rev s) ↔ c ∈ chars s.
Proof.
  unfold String.rev. rewrite chars_rev_app.
  cbn [chars String.list_ascii_of_string]. by rewrite app_nil_r, elem_of_reverse.
Qed.

Lemma elem_of_chars_lstrip space c s :
  c ∈ chars s → space c = true ∨ c ∈ chars (lstrip space s).
Proof.
  induction s as [|a s IH]; [by right|].
  cbn [lstrip]. destruct (space a) eqn:Hspace; [|by right].
  intros [->|Hin]%elem_of_cons; [by left | by apply IH].
Qed.

Lemma elem_of_chars_strip space c s :
  c ∈ chars s → space c = true ∨ c ∈ chars (strip space s).
Proof.
  intros [?|Hin]%(elem_of_chars_lstrip space); [by left|].
  unfold strip, rstrip. rewrite elem_of_chars_rev.
  apply elem_of_chars_lstrip. by rewrite elem_of_chars_rev.
Qed.

Lemma int_digits_chars acc digits after_us s n c :
  int_digits acc digits after_us s = Some n → c ∈ chars s → numeric_char c.
Proof.
  revert acc digits after_us.
  induction s as [|a s IH]; intros acc digits after_us Hint Hin.
  { by apply elem_of_nil in Hin. }
  cbn [int_digits] in Hint. apply elem_of_cons in Hin as [->|Hin].
  - destruct (Ascii.eqb a "_") eqn:Hus.
    + apply Ascii.eqb_eq in Hus as ->. right; right; by left.
    + destruct (digit_value a) eqn:Hdigit; [|done]. left. by rewrite Hdigit.
  - destruct (Ascii.eqb a "_").
    + destruct after_us; [done | by eapply IH].
    + destruct (digit_value a); [by eapply IH | done].
Qed.

Lemma int_unsigned_chars s n c :
  int_unsigned s = Some n → c ∈ chars s → numeric_char c.
Proof.
  destruct s as [|a s]; [done|]. cbn [int_unsigned].
  destruct (digit_value a) eqn:Hdigit; [|done].
  intros Hint [->|Hin]%elem_of_cons.
  - left. by rewrite Hdigit.
  - by eapply int_digits_chars.
Qed.

(** A string that [int] accepts consists of digits, white space, signs
    and underscores: [int] raises on a string with any other character. *)
Lemma int_Some_chars s n c : int s = Some n → c ∈ chars s → numeric_char c.
Proof.
  unfold int. intros Hint [Hspace|Hin]%(elem_of_chars_strip int_isspace).
  { right. by left. }
  destruct (strip int_isspace s) as [|a s']; [done|].
  destruct (Ascii.eqb a "-") eqn:Hminus.
  { apply Ascii.eqb_eq in Hminus as ->.
    apply elem_of_cons in Hin as [->|Hin]; [by repeat right|].
    destruct (int_unsigned s') eqn:Hunsigned; [|done].
    by eapply int_unsigned_chars. }
  destruct (Ascii.eqb a "+") eqn:Hplus.
  { apply Ascii.eqb_eq in Hplus as ->.
    apply elem_of_cons in Hin as [->|Hin]; [right; right; right; by left|].
    by eapply int_unsigned_chars. }
  by eapply int_unsigned_chars.
Qed.

(** [int] skips tabs, line ends, spaces and the two white-space code
    points above 127 around a literal; it raises on the separators 28 to
    31, on white space inside the literal and on a doubled underscore. *)
Example int_of_padded_literals :
  int " 9 " = Some 9
  ∧ int ("9" +:+ String (ascii_of_nat 31) "") = None
  ∧ int (String (ascii_of_nat 133) "12" +:+ String (ascii_of_nat 160) "")
    = Some 12
  ∧ int "1_000" = Some 1000
  ∧ int "1__0" = None
  ∧ int "-7" = Some (-7)
  ∧ int "+ 7" = None
  ∧ int "" = None.
Proof. by vm_compute. Qed.

Lemma elem_of_chars_split sep s c :
  c ∈ chars s → c ≠ sep → ∃ part, part ∈ split sep s ∧ c ∈ chars part.
Proof.
  intros Hin Hsep. induction s as [|a s IH]; [by apply elem_of_nil in Hin|].
  cbn [split]. destruct (Ascii.eqb_spec a sep) as [->|Hne].
  - apply elem_of_cons in Hin as [->|Hin]; [done|].
    destruct (IH Hin) as (part & ? & ?). exists part. split; [by right | done].
  - destruct (split sep s) as [|part parts] eqn:Hsplit.
    + exists (String a ""). split; [left|].
      apply elem_of_cons in Hin as [->|Hin]; [left|].
      by destruct (IH Hin) as (? & ?%elem_of_nil & _).
    + apply elem_of_cons in Hin as [->|Hin].
      * exists (String a part). split; left.
      * destruct (IH Hin) as (part' & [->|?]%elem_of_cons & ?).
        -- exists (String a part). split; [left | by right].
        -- exists part'. split; [by right | done].
Qed.

(** A value with a character that is neither numeric nor, for the list
    parameters, a comma is rejected. *)
Lemma parsed_filter_None p v c :
  c ∈ chars v → ¬ numeric_char c →
  (p ∈ [muscles_filter; muscles_secondary_filter; equipment_filter] → c ≠ ","%char) →
  parsed_filter p v = None.
Proof.
  intros Hin Hplain Hcomma.
  assert (int v = None) as Hscalar.
  { destruct (int v) eqn:Hint; [|done]. by destruct (Hplain (int_Some_chars _ _ _ Hint Hin)). }
  assert (c ≠ ","%char → mapM int (split "," v) = None) as Hlist.
  { intros Hne. destruct (elem_of_chars_split "," v c Hin Hne) as (part & Hpart & Hc).
    apply mapM_None, Exists_exists. exists part. split; [done|].
    destruct (int part) eqn:Hint; [|done].
    by destruct (Hplain (int_Some_chars _ _ _ Hint Hc)). }
  destruct p; cbn [parsed_filter]; rewrite ?Hscalar; [done| | | |done].
  all: rewrite Hlist; [done|]; apply Hcomma; set_solver.
Qed.

(** ** [ExerciseViewSet.get_queryset] *)

Lemma returns_mret {A} (a : A) w : returns (mret a) w a.
Proof. exists []. rewrite app_nil_r. by destruct w. Qed.

Lemma returns_bind {A B} (m : M A) (f : A → M B) w a b :
  returns m w a → (∀ w', returns (f a) w' b) → returns (m ≫= f) w b.
Proof.
  intros [lines1 Hm] Hf.
  destruct (Hf (with_log (log w ++ lines1) w)) as [lines2 Hfa].
  exists (lines1 ++ lines2)%list. rewrite M_bind_run, Hm, Hfa.
  cbn. by rewrite (assoc_L (++)).
Qed.

Lemma returns_gets {A} (f : World → A) w : returns (gets f) w (f w).
Proof. exists []. rewrite app_nil_r. by destruct w. Qed.

Lemma returns_logger_info msg w : returns (logger_info msg) w tt.
Proof. by exists [msg]. Qed.

(** The list comprehension [[int(m) for m in values]] raises
    [ValueError] when [int] rejects one of the values. *)
Lemma mapM_py_int values w :
  mapM py_int values w =
    match mapM int values with
    | Some ns => (Ok ns, w)
    | None => (Raised ValueError, w)
    end.
Proof.
  induction values as [|v values IH]; [done|].
  cbn [mapM]. rewrite M_bind_run. unfold py_int at 1.
  change (mapM int (v :: values))
    with (n ← int v; ns ← mapM int values; Some (n :: ns)).
  destruct (int v) as [n|]; [|done]. cbn [mret M_ret raise option_bind mbind].
  unfold mbind at 1, M_bind at 1. fold (@mapM M _ _ _ _ py_int). rewrite IH.
  by destruct (mapM int values).
Qed.

(** A guarded [try]/[except ValueError] around a parse. *)
Lemma returns_try_parse {A} (value : option string) (parse : M A)
    (parsed : option A) (f : A → list Exercise → list Exercise) msg qs w :
  (∀ w', parse w' = match parsed with
                    | Some a => (Ok a, w')
                    | None => (Raised ValueError, w')
                    end) →
  returns
    (if given value then
       try_except (a ← parse; mret (f a qs)) ValueError
                  (logger_info msg;; mret qs)
     else mret qs) w
    (if given value then
       match parsed with Some a => f a qs | None => qs end
     else qs).
Proof.
  intros Hparse. destruct (given value); [|apply returns_mret].
  unfold returns, try_except. rewrite M_bind_run, Hparse.
  destruct parsed as [a|].
  - apply returns_mret.
  - rewrite bool_decide_eq_true_2 by done.
    eapply returns_bind; [apply returns_logger_info|].
    intros w'. apply returns_mret.
Qed.

Lemma returns_eq {A} (m : M A) w a a' : returns m w a → a = a' → returns m w a'.
Proof. by intros ? <-. Qed.

(** One stage of [get_queryset], for a parameter parsed by [parse]. *)
Lemma returns_filter_stage {A} p request (parse : string → M A)
    (parsed : string → option A) (f : A → list Exercise → list Exercise)
    msg qs w :
  (∀ v w', parse v w' = match parsed v with
                        | Some a => (Ok a, w')
                        | None => (Raised ValueError, w')
                        end) →
  (∀ v, parsed_filter p v = f <$> parsed v) →
  let value := QueryDict_get (parameter_name p) (GET request) in
  returns
    (if given value then
       try_except (a ← parse (default "" value); mret (f a qs)) ValueError
                  (logger_info msg;; mret qs)
     else mret qs) w
    (filter_stage request qs p).
Proof.
  intros Hparse Hfilter. cbn zeta. unfold filter_stage.
  generalize (QueryDict_get (parameter_name p) (GET request)). intros value.
  eapply returns_eq.
  { apply (returns_try_parse value (parse (default "" value))
             (parsed (default "" value))).
    intros w'. apply Hparse. }
  destruct value as [v|]; [|done].
  cbn [given default]. unfold id. destruct (truthy v); [|reflexivity].
  rewrite Hfilter. by destruct (parsed v).
Qed.

(** [get_queryset] never raises: it returns the exercises filtered by
    each parameter in turn, and only writes to the log. *)
Lemma get_queryset_run request w :
  returns (ExerciseViewSet_get_queryset request) w
          (foldl (filter_stage request) (exercises w) filter_parameters).
Proof.
  unfold ExerciseViewSet_get_queryset.
  eapply returns_bind; [apply returns_gets|]. intros w0. cbn zeta.
  eapply returns_bind;
    [apply (returns_filter_stage category_filter request py_int int);
     [apply py_int_run | done]|]. intros w1.
  eapply returns_bind;
    [apply (returns_filter_stage muscles_filter request
              (λ v, mapM py_int (split "," v)) (λ v, mapM int (split "," v)));
     [intros; apply mapM_py_int | done]|]. intros w2.
  eapply returns_bind;
    [apply (returns_filter_stage muscles_secondary_filter request
              (λ v, mapM py_int (split "," v)) (λ v, mapM int (split "," v)));
     [intros; apply mapM_py_int | done]|]. intros w3.
  eapply returns_bind;
    [apply (returns_filter_stage equipment_filter request
              (λ v, mapM py_int (split "," v)) (λ v, mapM int (split "," v)));
     [intros; apply mapM_py_int | done]|]. intros w4.
  eapply returns_bind;
    [apply (returns_filter_stage license_filter request py_int int);
     [apply py_int_run | done]|]. intros w5.
  apply returns_mret.
Qed.

Lemma parameter_name_inj p p' : parameter_name p = parameter_name p' → p = p'.
Proof. by destruct p, p'. Qed.

Lemma QueryDict_get_without_same p request :
  QueryDict_get (parameter_name p) (GET (without_parameter p request)) = None.
Proof.
  unfold QueryDict_get, without_parameter. cbn [GET].
  rewrite list_filter_filter, filter_none; [done|]. naive_solver.
Qed.

Lemma QueryDict_get_without_other p p' request :
  p' ≠ p →
  QueryDict_get (parameter_name p') (GET (without_parameter p request))
  = QueryDict_get (parameter_name p') (GET request).
Proof.
  intros Hne. unfold QueryDict_get, without_parameter. cbn [GET].
  rewrite list_filter_filter. do 2 f_equal. apply list_filter_iff.
  intros kv. split; [naive_solver|]. intros Hkey. split; [done|].
  rewrite Hkey. intros Heq%parameter_name_inj. done.
Qed.

Lemma foldl_skip {A B} `{EqDecision B} (f : A → B → A) (b : B) (l : list B) a :
  (∀ a, f a b = a) → foldl f a l = foldl f a (filter (λ b', b' ≠ b) l).
Proof.
  intros Hskip. revert a. induction l as [|b' l IH]; intros a; [done|].
  destruct (decide (b' = b)) as [->|Hne].
  - rewrite filter_cons_False by naive_solver. cbn [foldl]. by rewrite Hskip.
  - rewrite filter_cons_True by done. cbn [foldl]. apply IH.
Qed.

Lemma elem_of_filter_base_related_in relation ids qs e :
  e ∈ filter_base_related_in relation ids qs ↔
  e ∈ qs ∧ ∃ base k, exercise_base e = Some base ∧ k ∈ relation base ∧ k ∈ ids.
Proof.
  unfold filter_base_related_in. rewrite list_elem_of_bind. split.
  - intros (e' & Hin & He').
    destruct (exercise_base e') as [base|] eqn:Hbase; [|by apply elem_of_nil in Hin].
    apply elem_of_replicate in Hin as [-> Hsome]. split; [done|].
    destruct (filter (λ k, k ∈ ids) (relation base)) as [|k ks] eqn:Hfilter; [done|].
    assert (k ∈ filter (λ k, k ∈ ids) (relation base)) as Hk
      by (rewrite Hfilter; left).
    apply list_elem_of_filter in Hk as [? ?]. by exists base, k.
  - intros (He & base & k & Hbase & Hk & Hids). exists e. split; [|done].
    rewrite Hbase. apply elem_of_replicate. split; [done|].
    assert (k ∈ filter (λ k, k ∈ ids) (relation base)) as Hin
      by by apply list_elem_of_filter.
    by destruct (filter (λ k, k ∈ ids) (relation base));
      [apply elem_of_nil in Hin|].
Qed.

(** What a stage lets through. *)
Lemma elem_of_filter_stage request qs p e :
  e ∈ filter_stage request qs p ↔ e ∈ qs ∧ passes request e p.
Proof.
  unfold filter_stage, passes.
  destruct (QueryDict_get (parameter_name p) (GET request)) as [v|]; last first.
  { split; [|by intros [? _]]. intros ?. split; [done|]. intros ? [=]. }
  destruct (truthy v) eqn:Htruthy; last first.
  { split; [|by intros [? _]]. intros ?. split; [done|].
    intros ? [= <-] ?. congruence. }
  destruct (parsed_filter p v) as [apply|] eqn:Hparsed; last first.
  { split; [|by intros [? _]]. intros ?. split; [done|].
    intros ? [= <-] _ Hsome. rewrite Hparsed in Hsome. by destruct Hsome. }
  assert (e ∈ apply qs ↔ e ∈ qs ∧ meets p v e) as ->.
  { destruct p; cbn [parsed_filter meets] in *.
    - destruct (int v) as [n|]; simplify_eq/=.
      unfold filter_base_column. rewrite list_elem_of_filter. naive_solver.
    - destruct (mapM int (split "," v)) as [ids|]; simplify_eq/=.
      rewrite elem_of_filter_base_related_in. naive_solver.
    - destruct (mapM int (split "," v)) as [ids|]; simplify_eq/=.
      rewrite elem_of_filter_base_related_in. naive_solver.
    - destruct (mapM int (split "," v)) as [ids|]; simplify_eq/=.
      rewrite elem_of_filter_base_related_in. naive_solver.
    - destruct (int v) as [n|]; simplify_eq/=.
      unfold filter_base_column. rewrite list_elem_of_filter. naive_solver. }
  split.
  - intros [? ?]. split; [done|]. by intros ? [= <-] _ _.
  - intros [? Hpasses]. split; [done|]. apply Hpasses; [done..|]. by eexists.
Qed.

(** What the five stages let through, one after the other. *)
Lemma elem_of_filter_stages request rows e :
  e ∈ foldl (filter_stage request) rows filter_parameters
  ↔ e ∈ rows ∧ ∀ p, passes request e p.
Proof.
  cbn [filter_parameters foldl]. rewrite !elem_of_filter_stage. split.
  - intros (((((? & ?) & ?) & ?) & ?) & ?). split; [done|]. by intros [].
  - intros [? Hall]. by split_and!.
Qed.

(** C5.  When the value of one of the parameters category, muscles,
    muscles_secondary, equipment and license is not accepted by [int]
    (for the list parameters: one of its comma-separated values is not),
    [get_queryset] does not raise and leaves that filter unapplied while
    the other parameters filter as they do otherwise: the result holds
    exactly the stored exercises that every other parameter lets
    through, and it is what [get_queryset] returns for the request
    without that parameter. *)
Theorem rejected_filter_is_skipped p request w v :
  QueryDict_get (parameter_name p) (GET request) = Some v →
  parsed_filter p v = None →
  ∃ qs lines,
    ExerciseViewSet_get_queryset request w
    = (Ok qs, with_log (log w ++ lines) w)
    ∧ (∀ rows, filter_stage request rows p = rows)
    ∧ qs = foldl (filter_stage request) (exercises w)
                 (filter (λ p', p' ≠ p) filter_parameters)
    ∧ (ExerciseViewSet_get_queryset (without_parameter p request) w).1 = Ok qs
    ∧ (∀ e, e ∈ qs ↔
            e ∈ exercises w ∧ ∀ p', p' ≠ p → passes request e p').
Proof.
  intros Hvalue Hrejected.
  assert (∀ rows, filter_stage request rows p = rows) as Hskip.
  { intros rows. unfold filter_stage. rewrite Hvalue, Hrejected.
    by destruct (truthy v). }
  assert (∀ rows, filter_stage (without_parameter p request) rows p = rows)
    as Hskip'.
  { intros rows. unfold filter_stage. by rewrite QueryDict_get_without_same. }
  destruct (get_queryset_run request w) as [lines Hrun].
  destruct (get_queryset_run (without_parameter p request) w) as [lines' Hrun'].
  eexists _, lines. split; [exact Hrun|]. split; [exact Hskip|].
  split; [by apply foldl_skip|]. split.
  - rewrite Hrun'. cbn [fst]. f_equal.
    rewrite (foldl_skip (filter_stage request) p _ _ Hskip).
    rewrite (foldl_skip (filter_stage (without_parameter p request)) p _ _ Hskip').
    assert (∀ p', p' ∈ filter (λ p', p' ≠ p) filter_parameters →
                  ∀ rows, filter_stage (without_parameter p request) rows p'
                          = filter_stage request rows p') as Hother.
    { intros p' [Hne _]%list_elem_of_filter rows. unfold filter_stage.
      by rewrite QueryDict_get_without_other. }
    revert Hother. generalize (exercises w).
    induction (filter (λ p', p' ≠ p) filter_parameters) as [|p' ps IH];
      intros rows Hother; [reflexivity|].
    cbn [foldl]. rewrite Hother by left. apply IH.
    intros p'' Hin. apply Hother. by right.
  - intros e. rewrite elem_of_filter_stages. split.
    + intros [? Hall]. split; [done|]. intros p' _. apply Hall.
    + intros [? Hothers]. split; [done|]. intros p'.
      destruct (decide (p' = p)) as [->|Hne]; [|by apply Hothers].
      intros v' Hv' _ Hsome. rewrite Hvalue in Hv'. injection Hv' as <-.
      rewrite Hrejected in Hsome. by destruct Hsome.
Qed.

Lemma rejected_filter_is_skipped_witness :
  ∃ qs lines,
    ExerciseViewSet_get_queryset
      (get_request [("category", "abc"); ("equipment", "3")]) installation
    = (Ok qs, with_log (log installation ++ lines) installation)
    ∧ (∀ rows, filter_stage
                 (get_request [("category", "abc"); ("equipment", "3")])
                 rows category_filter = rows)
    ∧ qs = foldl (filter_stage
                    (get_request [("category", "abc"); ("equipment", "3")]))
                 (exercises installation)
                 (filter (λ p', p' ≠ category_filter) filter_parameters)
    ∧ (ExerciseViewSet_get_queryset
         (without_parameter category_filter
            (get_request [("category", "abc"); ("equipment", "3")]))
         installation).1 = Ok qs
    ∧ (∀ e, e ∈ qs ↔
            e ∈ exercises installation
            ∧ ∀ p', p' ≠ category_filter →
                    passes (get_request [("category", "abc"); ("equipment", "3")])
                           e p').
Proof.
  apply (rejected_filter_is_skipped category_filter
           (get_request [("category", "abc"); ("equipment", "3")])
           installation "abc").
  - reflexivity.
  - reflexivity.
Defined.

(** On the example installation: the malformed category is logged and
    skipped, the equipment filter still selects the two curls. *)
Example get_queryset_with_malformed_category :
  ExerciseViewSet_get_queryset
    (get_request [("category", "abc"); ("equipment", "3")]) installation
  = (Ok [biceps_curl; bizeps_curl],
     with_log ["Got abc as category ID"] installation).
Proof. by vm_compute. Qed.

(** A base related to two of the requested muscles yields its exercises
    twice, as the join does. *)
Example get_queryset_with_two_muscles :
  (ExerciseViewSet_get_queryset
     (get_request [("muscles", "1, 13 ")]) installation).1
  = Ok [biceps_curl; biceps_curl; bizeps_curl; bizeps_curl].
Proof. by vm_compute. Qed.

(** ** The history view *)

Lemma latest_from b qs h :
  foldl (λ best h,
           match best with
           | Some b => if history_date b <? history_date h then Some h else Some b
           | None => Some h
           end) (Some b) qs = Some h →
  (h = b ∨ h ∈ qs) ∧ history_date b ≤ history_date h
  ∧ ∀ h', h' ∈ qs → history_date h' ≤ history_date h.
Proof.
  revert b. induction qs as [|q qs IH]; intros b Hfold; simplify_eq/=.
  - split_and!; [by left | lia | by intros ? ?%elem_of_nil].
  - destruct (Z.ltb_spec (history_date b) (history_date q)) as [Hlt|Hge];
      apply IH in Hfold as (Hin & Hle & Hmax).
    + split_and!; [set_solver | lia |].
      intros h' [->|?]%elem_of_cons; [lia | by apply Hmax].
    + split_and!; [set_solver | lia |].
      intros h' [->|?]%elem_of_cons; [lia | by apply Hmax].
Qed.

Lemma latest_None qs : latest qs = None ↔ qs = [].
Proof.
  split; [|by intros ->]. destruct qs as [|q qs]; [done|].
  unfold latest. cbn [foldl]. intros Hnone. exfalso. revert q Hnone.
  induction qs as [|q' qs IH]; intros q; [done|].
  cbn [foldl]. destruct (history_date q <? history_date q'); apply IH.
Qed.

Lemma latest_Some qs h :
  latest qs = Some h →
  h ∈ qs ∧ ∀ h', h' ∈ qs → history_date h' ≤ history_date h.
Proof.
  destruct qs as [|q qs]; [done|]. unfold latest. cbn [foldl].
  intros (Hin & Hle & Hmax)%latest_from. split.
  - destruct Hin as [->|?]; [left | by right].
  - intros h' [->|?]%elem_of_cons; [lia | by apply Hmax].
Qed.

(** [prev_record] is [None] exactly when there is no older revision of
    the same exercise. *)
Lemma prev_record_is_Some entry w :
  is_Some (prev_record entry w) ↔ has_previous entry w.
Proof.
  unfold prev_record, history_of, has_previous.
  rewrite <-not_eq_None_Some, latest_None. split.
  - intros Hsome.
    destruct (filter _ (filter _ _)) as [|older rest] eqn:Hfilter; [done|].
    assert (older ∈ older :: rest) as Hin by left.
    rewrite <-Hfilter in Hin.
    apply list_elem_of_filter in Hin as [? [? ?]%list_elem_of_filter].
    by exists older.
  - intros (older & Hin & Hsame & Holder) Hnone.
    assert (older ∈ filter (λ h, history_date h < history_date entry)
              (filter (λ h, pk (instance h) = pk (instance entry))
                      (exercise_history w))) as Hin'
      by by rewrite !list_elem_of_filter.
    rewrite Hnone in Hin'. by apply elem_of_nil in Hin'.
Qed.

(** [prev_record] is the latest of the older revisions of the exercise. *)
Lemma prev_record_Some entry w previous :
  prev_record entry w = Some previous →
  previous ∈ exercise_history w
  ∧ pk (instance previous) = pk (instance entry)
  ∧ history_date previous < history_date entry
  ∧ ∀ older, older ∈ exercise_history w →
             pk (instance older) = pk (instance entry) →
             history_date older < history_date entry →
             history_date older ≤ history_date previous.
Proof.
  unfold prev_record, history_of. intros [Hin Hmax]%latest_Some.
  apply list_elem_of_filter in Hin as [? [? ?]%list_elem_of_filter].
  split_and!; [done..|]. intros older ? ? ?. apply Hmax.
  by rewrite !list_elem_of_filter.
Qed.

(** The delta names a field exactly when both revisions have it with
    different values. *)
Lemma diff_against_changed_fields self old_history name :
  name ∈ changed_fields (diff_against self old_history) ↔
  ∃ old_value new_value,
    (name, new_value) ∈ model_to_dict (instance self)
    ∧ dict_get name (model_to_dict (instance old_history)) = Some old_value
    ∧ old_value ≠ new_value.
Proof.
  unfold diff_against. cbn [changed_fields].
  rewrite list_elem_of_fmap. setoid_rewrite list_elem_of_omap. split.
  - intros (change & -> & [name' new_value] & Hin & Hchange).
    destruct (dict_get name' _) as [old_value|] eqn:Hold; [|done].
    case_bool_decide; simplify_eq/=. by exists old_value, new_value.
  - intros (old_value & new_value & Hin & Hold & Hne).
    exists {| field := name; old := old_value; new := new_value |}.
    split; [done|]. exists (name, new_value). split; [done|].
    rewrite Hold. by rewrite bool_decide_eq_false_2.
Qed.

Lemma dict_get_nil {A} k : dict_get k ([] : list (string * A)) = None.
Proof. done. Qed.

Lemma dict_get_cons {A} k k' (v : A) d :
  dict_get k ((k', v) :: d) = if decide (k' = k) then Some v else dict_get k d.
Proof.
  unfold dict_get. cbn [list_find]. cbn [fst].
  destruct (decide (k' = k)); [done|].
  by destruct (list_find (λ kv, kv.1 = k) d) as [[? [? ?]]|].
Qed.

Lemma dict_get_Some {A} k (v : A) d : dict_get k d = Some v → (k, v) ∈ d.
Proof.
  unfold dict_get. intros Hget.
  destruct (list_find (λ kv, kv.1 = k) d) as [[i [k' v']]|] eqn:Hfind;
    simplify_eq/=.
  apply list_find_Some in Hfind as (Hlookup & Hkey & _). cbn in Hkey. subst.
  by eapply list_elem_of_lookup_2.
Qed.

(** The delta names exactly the compared columns in which the two
    revisions differ. *)
Lemma changed_fields_differs self old_history column :
  column ∈ changed_fields (diff_against self old_history)
  ↔ differs column (instance self) (instance old_history).
Proof.
  rewrite diff_against_changed_fields. unfold differs, model_to_dict. split.
  - intros (old_value & new_value & Hin & Hold & Hne).
    apply list_elem_of_In in Hin. cbn [In] in Hin.
    destruct Hin as [Heq|[Heq|[Heq|[Heq|[Heq|[Heq|[]]]]]]];
      injection Heq as <- <-;
      rewrite !dict_get_cons in Hold;
      repeat (rewrite decide_False in Hold by done);
      rewrite decide_True in Hold by done;
      injection Hold as <-.
    + left. split; [done|congruence].
    + right; left. split; [done|congruence].
    + do 2 right; left. split; [done|congruence].
    + do 3 right; left. split; [done|congruence].
    + do 4 right; left. split; [done|congruence].
    + do 5 right. split; [done|].
      destruct (exercise_base (instance self)),
               (exercise_base (instance old_history)); cbn in *; congruence.
  - intros [[-> Hne]|[[-> Hne]|[[-> Hne]|[[-> Hne]|[[-> Hne]|[-> Hne]]]]]];
      eexists _, _;
      (split; [apply list_elem_of_In; cbn [In]; eauto 8|]);
      (split;
       [rewrite !dict_get_cons;
        repeat (rewrite decide_False by done);
        by rewrite decide_True by done|]).
    1-5: congruence.
    destruct (exercise_base (instance self)),
             (exercise_base (instance old_history)); cbn in *; congruence.
Qed.

(** Every change of the delta carries the values of its column in the
    two revisions. *)
Lemma diff_against_changes self old_history change :
  change ∈ changes (diff_against self old_history) →
  (field change, new change) ∈ model_to_dict (instance self)
  ∧ (field change, old change) ∈ model_to_dict (instance old_history).
Proof.
  unfold diff_against. cbn [changes].
  intros ([column new_value] & Hin & Hchange)%list_elem_of_omap.
  destruct (dict_get column _) as [old_value|] eqn:Hold; [|done].
  case_bool_decide; simplify_eq/=. split; [done|]. by apply dict_get_Some.
Qed.

(** C8.  For a user with the permission, [overview2] renders
    [history/list2.html] with one row for each revision of the history
    that has a previous revision, in the order of the history; a revision
    without an older revision of the same exercise gets no row.  The row
    of a revision is paired with its diff against the previous revision,
    the latest of the older revisions of the same exercise: the diff
    names exactly the compared columns (license, license_author,
    description, name, language, exercise_base) whose values differ
    between the two revisions, with one change for each that carries the
    value of the column in either revision. *)
Theorem overview2_rows_are_revisions_with_previous request w :
  has_perm (user request) "exercises.change_exercise" = true →
  ∃ out,
    overview2 request w = (Ok (Render "history/list2.html" out), w)
    ∧ record <$> out
      = filter (λ entry, is_Some (prev_record entry w)) (exercise_history w)
    ∧ (∀ entry, entry ∈ record <$> out ↔
                entry ∈ exercise_history w ∧ has_previous entry w)
    ∧ (∀ row, row ∈ out →
         ∃ previous,
           prev_record (record row) w = Some previous
           ∧ delta row = diff_against (record row) previous
           ∧ previous ∈ exercise_history w
           ∧ pk (instance previous) = pk (instance (record row))
           ∧ history_date previous < history_date (record row)
           ∧ (∀ older, older ∈ exercise_history w →
                       pk (instance older) = pk (instance (record row)) →
                       history_date older < history_date (record row) →
                       history_date older ≤ history_date previous)
           ∧ new_record (delta row) = record row
           ∧ old_record (delta row) = previous
           ∧ field <$> changes (delta row) = changed_fields (delta row)
           ∧ (∀ column, column ∈ changed_fields (delta row) ↔
                        differs column (instance (record row)) (instance previous))
           ∧ (∀ change, change ∈ changes (delta row) →
                (field change, new change) ∈ model_to_dict (instance (record row))
                ∧ (field change, old change) ∈ model_to_dict (instance previous))).
Proof.
  intros Hperm. unfold overview2. rewrite Hperm.
  eexists. split; [reflexivity|]. split; [|split].
  - induction (exercise_history w) as [|entry entries IH]; [done|]. csimpl.
    destruct (prev_record entry w) as [previous|] eqn:Hprev.
    + rewrite filter_cons_True by (by rewrite Hprev). csimpl. by rewrite IH.
    + rewrite filter_cons_False by (rewrite Hprev; by intros [??]). done.
  - intros entry. rewrite list_elem_of_fmap. setoid_rewrite list_elem_of_omap.
    rewrite <-prev_record_is_Some. split.
    + intros (row & -> & entry' & Hin & Hrow).
      destruct (prev_record entry' w) as [previous|] eqn:Hprev; simplify_eq/=.
      by rewrite Hprev.
    + intros [Hin [previous Hprev]].
      exists {| record := entry; delta := diff_against entry previous |}.
      split; [done|]. exists entry. by rewrite Hprev.
  - intros row (entry & Hin & Hrow)%list_elem_of_omap.
    destruct (prev_record entry w) as [previous|] eqn:Hprev; simplify_eq/=.
    exists previous.
    destruct (prev_record_Some _ _ _ Hprev) as (? & ? & ? & ?).
    split_and!; [done..| |].
    + intros column. apply changed_fields_differs.
    + intros change. apply diff_against_changes.
Qed.

Lemma overview2_rows_are_revisions_with_previous_witness :
  ∃ out,
    overview2 (get_request []) installation
    = (Ok (Render "history/list2.html" out), installation)
    ∧ record <$> out
      = filter (λ entry, is_Some (prev_record entry installation))
               (exercise_history installation)
    ∧ (∀ entry, entry ∈ record <$> out ↔
                entry ∈ exercise_history installation
                ∧ has_previous entry installation)
    ∧ (∀ row, row ∈ out →
         ∃ previous,
           prev_record (record row) installation = Some previous
           ∧ delta row = diff_against (record row) previous
           ∧ previous ∈ exercise_history installation
           ∧ pk (instance previous) = pk (instance (record row))
           ∧ history_date previous < history_date (record row)
           ∧ (∀ older, older ∈ exercise_history installation →
                       pk (instance older) = pk (instance (record row)) →
                       history_date older < history_date (record row) →
                       history_date older ≤ history_date previous)
           ∧ new_record (delta row) = record row
           ∧ old_record (delta row) = previous
           ∧ field <$> changes (delta row) = changed_fields (delta row)
           ∧ (∀ column, column ∈ changed_fields (delta row) ↔
                        differs column (instance (record row)) (instance previous))
           ∧ (∀ change, change ∈ changes (delta row) →
                (field change, new change) ∈ model_to_dict (instance (record row))
                ∧ (field change, old change) ∈ model_to_dict (instance previous))).
Proof.
  apply (overview2_rows_are_revisions_with_previous (get_request []) installation).
  reflexivity.
Defined.

(** On the example installation the renamed squat is listed with the
    change of its name; the first revision is not listed. *)
Example overview2_of_installation :
  overview2 (get_request []) installation
  = (Ok (Render "history/list2.html"
           [{| record := squat_renamed;
               delta :=
                 {| changes :=
                      [{| field := "name"; old := VStr "Squat"; new := VStr "Squats" |}];
                    changed_fields := ["name"];
                    old_record := squat_created;
                    new_record := squat_renamed |} |}]),
     installation).
Proof. by vm_compute. Qed.

(** ** Creating a translation *)

Lemma length_chars s : length (chars s) = String.length s.
Proof. induction s as [|a s IH]; [done|]. cbn. by rewrite <-IH. Qed.

Lemma length_rev s : String.length (String.rev s) = String.length s.
Proof.
  rewrite <-!length_chars. unfold String.rev. rewrite chars_rev_app.
  cbn [chars String.list_ascii_of_string].
  by rewrite app_nil_r, length_reverse.
Qed.

Lemma length_lstrip space s :
  (String.length (lstrip space s) ≤ String.length s)%nat.
Proof.
  induction s as [|a s IH]; [done|]. cbn [lstrip].
  destruct (space a); cbn [String.length]; lia.
Qed.

(** Stripping does not make a text longer. *)
Lemma length_strip space s :
  (String.length (strip space s) ≤ String.length s)%nat.
Proof.
  unfold strip, rstrip. rewrite length_rev.
  etrans; [apply length_lstrip|]. rewrite length_rev. apply length_lstrip.
Qed.

Lemma description_error d w :
  (String.length (data_description d) < 40)%nat →
  ∃ messages,
    ("description", messages) ∈ field_errors d w
    ∧ ("min_length" ∈ messages ∨ messages = ["blank"]).
Proof.
  intros Hshort.
  pose proof (length_strip isspace (data_description d)) as Hstripped.
  assert ("min_length" ∈ char_field_errors description_max_length
                           description_validators (data_description d)
          ∨ char_field_errors description_max_length
              description_validators (data_description d) = ["blank"]) as Hcode.
  { unfold char_field_errors.
    destruct (truthy (strip isspace (data_description d))); [|by right].
    left. cbn [negb]. unfold description_validators. csimpl.
    unfold MinLengthValidator.
    rewrite (proj2 (Nat.ltb_lt _ _)) by lia. left. }
  eexists. split; [|exact Hcode].
  unfold field_errors. apply list_elem_of_filter. split; [|left].
  cbn [snd]. destruct Hcode as [Hin | ->]; [|done].
  intros Hnil. rewrite Hnil in Hin. by apply elem_of_nil in Hin.
Qed.

(** C7, as stated, fails: an attempt by a client that may not edit
    exercises is answered with the authorization error, whatever the
    description, and not with a validation error that names a field. *)
Lemma create_short_description_without_permission :
  (String.length (data_description short_curl) < 40)%nat
  ∧ CanEditExercises site {| user := guest; GET := []; data := short_curl |}
    = false
  ∧ ExerciseTranslationViewSet_create site
      {| user := guest; GET := []; data := short_curl |} installation
    = (Ok (Response HTTP_403_FORBIDDEN
             (JDict [("detail", JStr "permission_denied")])),
       installation).
Proof. split; [vm_compute; lia|]. split; by vm_compute. Qed.

(** C7, amended.  When a client that passes the edit-permission check
    submits a translation whose description is shorter than 40
    characters, the create handler answers 400 with the failing fields,
    [description] among them, with the minimum-length error or, for a
    description that is empty or all white space, the error for a blank
    text; the world is as before: no exercise, no revision and no
    activity entry has been written. *)
Theorem create_rejects_short_description env request w :
  CanEditExercises env request = true →
  (String.length (data_description (data request)) < 40)%nat →
  ∃ errors messages,
    ExerciseTranslationViewSet_create env request w
    = (Ok (Response HTTP_400_BAD_REQUEST (errors_json errors)), w)
    ∧ ("description", messages) ∈ errors
    ∧ ("min_length" ∈ messages ∨ messages = ["blank"]).
Proof.
  intros Hmay Hshort.
  destruct (description_error (data request) w Hshort) as (messages & Hin & Hcode).
  exists (field_errors (data request) w), messages.
  split; [|done].
  unfold ExerciseTranslationViewSet_create. rewrite Hmay. cbn [negb].
  rewrite M_bind_run. cbn [gets].
  destruct (field_errors (data request) w); [|done].
  by apply elem_of_nil in Hin.
Qed.

Lemma create_rejects_short_description_witness :
  ∃ errors messages,
    ExerciseTranslationViewSet_create site (post_request short_curl) installation
    = (Ok (Response HTTP_400_BAD_REQUEST (errors_json errors)), installation)
    ∧ ("description", messages) ∈ errors
    ∧ ("min_length" ∈ messages ∨ messages = ["blank"]).
Proof.
  apply (create_rejects_short_description site (post_request short_curl) installation).
  - reflexivity.
  - vm_compute. lia.
Defined.

(** On the example installation: the short description is answered with
    the error for that field alone, an empty one with the error for a
    blank text, and a long enough one is created, stored with a fresh key
    and recorded in the activity stream. *)
Example create_short_curl :
  ExerciseTranslationViewSet_create site (post_request short_curl) installation
  = (Ok (Response HTTP_400_BAD_REQUEST
           (JDict [("description", JList [JStr "min_length"])])),
     installation).
Proof. by vm_compute. Qed.

Example create_without_data :
  ExerciseTranslationViewSet_create site (post_request no_data) installation
  = (Ok (Response HTTP_400_BAD_REQUEST
           (JDict [("description", JList [JStr "blank"]);
                   ("name", JList [JStr "blank"]);
                   ("language", JList [JStr "does_not_exist"])])),
     installation).
Proof. by vm_compute. Qed.

Example create_long_curl :
  let after :=
    (ExerciseTranslationViewSet_create site (post_request long_curl) installation) in
  after.1 = Ok (Response HTTP_201_CREATED
                  (JDict [("id", JInt 4); ("name", JStr "Long curl");
                          ("description", JStr (description biceps_curl))]))
  ∧ length (exercises after.2) = 4%nat
  ∧ verb <$> actions after.2 = ["created"].
Proof. by vm_compute. Qed.

(** ** [search] with a term *)

Lemma exercise_json_run env e w :
  is_Some (exercise_base e) →
  exercise_json env e w = (Ok (suggestion env w e), w).
Proof.
  intros [base Hbase]. unfold exercise_json, suggestion.
  unfold Exercise_main_image, Exercise_images, Exercise_category,
    exercise_base_attr.
  rewrite Hbase. unfold mbind, M_bind, gets, mret, M_ret.
  cbn -[first accepted exerciseimage_set aliases_get].
  destruct (first _) as [main|] eqn:Hmain.
  - rewrite bool_decide_eq_true_2 by done.
    cbn -[first accepted exerciseimage_set aliases_get]. by rewrite Hmain.
  - by rewrite bool_decide_eq_false_2 by (by intros [??]).
Qed.

Lemma mapM_exercise_json env found w :
  (∀ e, e ∈ found → is_Some (exercise_base e)) →
  mapM (exercise_json env) found w = (Ok (suggestion env w <$> found), w).
Proof.
  induction found as [|e found IH]; intros Hbases; [done|].
  cbn [mapM]. rewrite M_bind_run, exercise_json_run by (apply Hbases; left).
  unfold mbind at 1, M_bind at 1. fold (@mapM M _ _ _ _ (exercise_json env)).
  rewrite IH; [done|]. intros e' ?. apply Hbases. by right.
Qed.

Lemma option_compare_antisym a b :
  option_compare a b = CompOpp (option_compare b a).
Proof. destruct a, b; try done. apply String.compare_antisym. Qed.

Global Instance search_order_total : Total search_order.
Proof.
  intros e1 e2. unfold search_order.
  rewrite (option_compare_antisym (category_name_of e2)).
  destruct (option_compare (category_name_of e1) (category_name_of e2));
    cbn [CompOpp]; [|by left|by right].
  rewrite (String.compare_antisym (name e2)).
  destruct (String.compare (name e1) (name e2)); cbn [CompOpp];
    [by left | by left | by right].
Qed.

Lemma join_alias_row row w :
  row ∈ join_alias w →
  row.1 ∈ exercises w
  ∧ ∀ s, row.2 = Some s →
         ∃ a, a ∈ aliases w ∧ pk row.1 = Some (alias_exercise_id a) ∧ alias a = s.
Proof.
  unfold join_alias. intros (e & Hrow & He)%list_elem_of_bind.
  destruct (filter _ (aliases w)) as [|a own] eqn:Hown.
  - apply list_elem_of_singleton in Hrow as ->. by split.
  - apply list_elem_of_fmap in Hrow as (a' & -> & Hin). split; [done|].
    intros s [= <-]. rewrite <-Hown in Hin.
    apply list_elem_of_filter in Hin as [? ?]. by exists a'.
Qed.

Lemma join_alias_exercise e w :
  e ∈ exercises w → ∃ joined, (e, joined) ∈ join_alias w.
Proof.
  intros He. unfold join_alias. setoid_rewrite list_elem_of_bind.
  destruct (filter (λ a, pk e = Some (alias_exercise_id a)) (aliases w))
    as [|a own] eqn:Hown.
  - exists None, e. rewrite Hown. split; [left | done].
  - exists (Some (alias a)), e. rewrite Hown. split; [left | done].
Qed.

Lemma join_alias_alias e a w :
  e ∈ exercises w → a ∈ aliases w → pk e = Some (alias_exercise_id a) →
  (e, Some (alias a)) ∈ join_alias w.
Proof.
  intros He Ha Hof. unfold join_alias. apply list_elem_of_bind. exists e.
  split; [|done].
  assert (a ∈ filter (λ a, pk e = Some (alias_exercise_id a)) (aliases w))
    as Hin by by apply list_elem_of_filter.
  destruct (filter _ (aliases w)) as [|a' own]; [by apply elem_of_nil in Hin|].
  apply list_elem_of_fmap. by exists a.
Qed.

(** The query of [search] holds exactly the matching exercises. *)
Lemma search_queryset_matches q visible w e :
  e ∈ search_queryset q visible w ↔ matches q visible w e.
Proof.
  unfold search_queryset, matches.
  rewrite merge_sort_Permutation, elem_of_remove_dups, list_elem_of_fmap. split.
  - intros ([e' joined] & -> & Hin).
    apply list_elem_of_filter in Hin as [Hlanguage Hin].
    apply list_elem_of_filter in Hin as [Hlookup Hrow].
    apply join_alias_row in Hrow as [He Halias]. cbn [fst snd] in *.
    split_and!; [done..|].
    unfold name_lookup in Hlookup. cbn [fst snd] in Hlookup.
    apply orb_true_iff in Hlookup as [?|Hlookup]; [by left|right].
    destruct joined as [s|]; [|done].
    destruct (Halias s eq_refl) as (a & ? & ? & <-). by exists a.
  - intros (He & Hlanguage & [Hname | (a & Ha & Hof & Halias)]).
    + destruct (join_alias_exercise e w He) as [joined Hrow].
      exists (e, joined). split; [done|]. rewrite !list_elem_of_filter.
      split_and!; [done| |done].
      unfold name_lookup. cbn [fst]. by rewrite Hname.
    + exists (e, Some (alias a)). split; [done|]. rewrite !list_elem_of_filter.
      split_and!; [done| |by apply join_alias_alias].
      unfold name_lookup. cbn [fst snd]. rewrite Halias. apply orb_true_r.
Qed.

Lemma search_queryset_NoDup q visible w : NoDup (search_queryset q visible w).
Proof.
  unfold search_queryset. rewrite merge_sort_Permutation.
  apply NoDup_remove_dups.
Qed.

Lemma ascii_compare_refl a : Ascii.compare a a = Eq.
Proof. unfold Ascii.compare. apply N.compare_refl. Qed.

Lemma ascii_compare_Lt_trans a b c :
  Ascii.compare a b = Lt → Ascii.compare b c = Lt → Ascii.compare a c = Lt.
Proof. unfold Ascii.compare. rewrite !N.compare_lt_iff. lia. Qed.

Lemma string_compare_refl s : String.compare s s = Eq.
Proof.
  induction s as [|a s IH]; [done|]. cbn [String.compare].
  by rewrite ascii_compare_refl.
Qed.

Lemma string_compare_Lt_trans s t u :
  String.compare s t = Lt → String.compare t u = Lt → String.compare s u = Lt.
Proof.
  revert t u. induction s as [|a s IH]; intros [|b t] [|c u]; try done.
  cbn [String.compare].
  destruct (Ascii.compare a b) eqn:Hab, (Ascii.compare b c) eqn:Hbc; try done.
  - apply Ascii.compare_eq_iff in Hab as ->, Hbc as ->.
    rewrite ascii_compare_refl. apply IH.
  - apply Ascii.compare_eq_iff in Hab as ->. by rewrite Hbc.
  - apply Ascii.compare_eq_iff in Hbc as <-. by rewrite Hab.
  - by rewrite (ascii_compare_Lt_trans a b c).
Qed.

Lemma string_compare_le_trans s t u :
  String.compare s t ≠ Gt → String.compare t u ≠ Gt → String.compare s u ≠ Gt.
Proof.
  destruct (String.compare s t) eqn:Hst, (String.compare t u) eqn:Htu; try done.
  - apply String.compare_eq_iff in Hst as ->. by rewrite Htu.
  - apply String.compare_eq_iff in Hst as ->. by rewrite Htu.
  - apply String.compare_eq_iff in Htu as <-. by rewrite Hst.
  - by rewrite (string_compare_Lt_trans s t u).
Qed.

Lemma option_compare_eq a b : option_compare a b = Eq → a = b.
Proof.
  destruct a, b; try done. by intros ->%String.compare_eq_iff.
Qed.

Lemma option_compare_refl a : option_compare a a = Eq.
Proof. destruct a; [apply string_compare_refl | done]. Qed.

Lemma option_compare_Lt_trans a b c :
  option_compare a b = Lt → option_compare b c = Lt → option_compare a c = Lt.
Proof. destruct a, b, c; try done. apply string_compare_Lt_trans. Qed.

Global Instance search_order_trans : Transitive search_order.
Proof.
  intros e1 e2 e3. unfold search_order.
  destruct (option_compare (category_name_of e1) (category_name_of e2)) eqn:H12,
           (option_compare (category_name_of e2) (category_name_of e3)) eqn:H23;
    try done.
  - apply option_compare_eq in H12 as ->. apply option_compare_eq in H23 as ->.
    rewrite option_compare_refl. apply string_compare_le_trans.
  - apply option_compare_eq in H12 as ->. by rewrite H23.
  - apply option_compare_eq in H23 as <-. by rewrite H12.
  - by rewrite (option_compare_Lt_trans _ _ _ H12 H23).
Qed.

(** Every row of the query comes before all the rows after it. *)
Lemma search_queryset_sorted q visible w :
  StronglySorted search_order (search_queryset q visible w).
Proof. unfold search_queryset. apply (StronglySorted_merge_sort _). Qed.

(** C6, as stated, fails: when the term matches an exercise without a
    base, [search] raises while it builds the suggestion and there is no
    result list. *)
Lemma search_raises_on_match_without_base :
  QueryDict_get "term" (GET (get_request [("term", "bench")])) = Some "bench"
  ∧ matches "bench" (load_item_languages site None) installation_with_orphan orphan
  ∧ search site (get_request [("term", "bench")]) installation_with_orphan
    = (Raised (AttributeError "exerciseimage_set"), installation_with_orphan).
Proof.
  split; [done|]. split; [|by vm_compute].
  split_and!; [| |by left].
  - apply list_elem_of_In. simpl. auto 6.
  - apply list_elem_of_In. simpl. auto.
Qed.

(** C6, amended.  For a non-empty term, provided every exercise that
    matches has a base, [search] answers with the suggestions of exactly
    the exercises of the visible languages whose name or some alias
    contains the term case-insensitively, each of them once even when
    both its name and an alias match, ordered by category name and then
    by exercise name; it changes nothing. *)
Theorem search_lists_matches_once_in_order env request w q :
  QueryDict_get "term" (GET request) = Some q →
  q ≠ "" →
  (∀ e, matches q (load_item_languages env (QueryDict_get "language" (GET request)))
                w e →
        is_Some (exercise_base e)) →
  ∃ found,
    search env request w
    = (Ok (Response HTTP_200_OK
             (JDict [("suggestions", JList (suggestion env w <$> found))])), w)
    ∧ (∀ e, e ∈ found ↔
            matches q (load_item_languages env
                         (QueryDict_get "language" (GET request))) w e)
    ∧ NoDup found
    ∧ StronglySorted search_order found.
Proof.
  intros Hterm Hnonempty Hbases.
  exists (search_queryset q
            (load_item_languages env (QueryDict_get "language" (GET request))) w).
  split_and!.
  - unfold search. rewrite Hterm. cbn [given default].
    destruct q as [|c q]; [done|]. cbn [truthy].
    rewrite M_bind_run. cbn [gets]. rewrite M_bind_run.
    rewrite mapM_exercise_json; [done|].
    intros e He. by apply Hbases, search_queryset_matches.
  - intros e. apply search_queryset_matches.
  - apply search_queryset_NoDup.
  - apply search_queryset_sorted.
Qed.

(** On the example installation [visible] is English; the term "curl"
    is in the name and in an alias of the biceps curl. *)
Lemma search_lists_matches_once_in_order_witness :
  ∃ found,
    search site (get_request [("term", "curl")]) installation
    = (Ok (Response HTTP_200_OK
             (JDict [("suggestions",
                      JList (suggestion site installation <$> found))])),
       installation)
    ∧ (∀ e, e ∈ found ↔
            matches "curl"
              (load_item_languages site
                 (QueryDict_get "language" (GET (get_request [("term", "curl")]))))
              installation e)
    ∧ NoDup found
    ∧ StronglySorted search_order found.
Proof.
  apply (search_lists_matches_once_in_order site
           (get_request [("term", "curl")]) installation "curl").
  - reflexivity.
  - discriminate.
  - intros e (He & _). apply list_elem_of_In in He.
    destruct He as [<- | [<- | [<- | []]]]; by eexists.
Defined.

Example search_curl :
  search site (get_request [("term", "CURL")]) installation
  = (Ok (Response HTTP_200_OK
           (JDict
              [("suggestions",
                JList
                  [JDict
                     [("value", JStr "Biceps curl");
                      ("data",
                       JDict
                         [("id", JInt 1); ("name", JStr "Biceps curl");
                          ("category", JStr "Arms");
                          ("image", JStr "/media/exercise-images/1/curl-1.png");
                          ("image_thumbnail",
                           JStr "/media/exercise-images/1/curl-1.png.30x30.png")])]])])),
     installation).
Proof. by vm_compute. Qed.

(** Both English exercises contain an "s"; the arms come before the legs. *)
Example search_queryset_in_order :
  search_queryset "s" [english] installation = [biceps_curl; squat]
  ∧ search_queryset "curl" [german; english] installation
    = [biceps_curl; bizeps_curl].
Proof. by vm_compute. Qed.

(** * Further properties *)

(** ** [ExerciseViewSet.get_queryset]: the log and the result *)

Lemma with_log_same w : with_log (log w ++ []) w = w.
Proof. rewrite app_nil_r. by destruct w. Qed.

Lemma bind_logged {A B} (m : M A) (f : A → M B) w a b lines1 lines2 :
  m w = (Ok a, with_log (log w ++ lines1) w) →
  (∀ w', f a w' = (Ok b, with_log (log w' ++ lines2) w')) →
  (m ≫= f) w = (Ok b, with_log (log w ++ (lines1 ++ lines2)) w).
Proof.
  intros Hm Hf. rewrite M_bind_run, Hm, Hf. cbn. by rewrite (assoc_L (++)).
Qed.

(** One stage of [get_queryset] with the line it logs. *)
Lemma filter_stage_logged {A} p request (parse : string → M A)
    (parsed : string → option A) (f : A → list Exercise → list Exercise) qs w :
  (∀ v w', parse v w' = match parsed v with
                        | Some a => (Ok a, w')
                        | None => (Raised ValueError, w')
                        end) →
  (∀ v, parsed_filter p v = f <$> parsed v) →
  (if given (QueryDict_get (parameter_name p) (GET request)) then
     try_except
       (a ← parse (default "" (QueryDict_get (parameter_name p) (GET request)));
        mret (f a qs))
       ValueError
       (logger_info
          (rejection_message p
             (default "" (QueryDict_get (parameter_name p) (GET request))));;
        mret qs)
   else mret qs) w
  = (Ok (filter_stage request qs p),
     with_log (log w ++ stage_log request p) w).
Proof.
  intros Hparse Hfilter. unfold filter_stage, stage_log.
  destruct (QueryDict_get (parameter_name p) (GET request)) as [v|];
    cbn [given default]; [|by rewrite with_log_same].
  destruct (truthy v); [|by rewrite with_log_same].
  unfold id, try_except. rewrite M_bind_run, Hparse, Hfilter.
  destruct (parsed v) as [a|]; cbn [fmap option_fmap option_map].
  - by rewrite with_log_same.
  - by rewrite bool_decide_eq_true_2 by done.
Qed.

(** [get_queryset] in closed form, with the lines it logs. *)
Lemma get_queryset_exact request w :
  ExerciseViewSet_get_queryset request w
  = (Ok (foldl (filter_stage request) (exercises w) filter_parameters),
     with_log (log w ++ concat (stage_log request <$> filter_parameters)) w).
Proof.
  unfold ExerciseViewSet_get_queryset. rewrite M_bind_run. cbn [gets].
  cbn [filter_parameters fmap list_fmap concat foldl]. rewrite app_nil_r.
  eapply bind_logged.
  { apply (filter_stage_logged category_filter request py_int int);
      [apply py_int_run | done]. }
  intros w1. eapply bind_logged.
  { apply (filter_stage_logged muscles_filter request
             (λ v, mapM py_int (split "," v)) (λ v, mapM int (split "," v)));
      [intros; apply mapM_py_int | done]. }
  intros w2. eapply bind_logged.
  { apply (filter_stage_logged muscles_secondary_filter request
             (λ v, mapM py_int (split "," v)) (λ v, mapM int (split "," v)));
      [intros; apply mapM_py_int | done]. }
  intros w3. eapply bind_logged.
  { apply (filter_stage_logged equipment_filter request
             (λ v, mapM py_int (split "," v)) (λ v, mapM int (split "," v)));
      [intros; apply mapM_py_int | done]. }
  intros w4.
  rewrite <-(app_nil_r (stage_log request license_filter)).
  eapply bind_logged.
  { apply (filter_stage_logged license_filter request py_int int);
      [apply py_int_run | done]. }
  intros w5. cbn. by rewrite with_log_same.
Qed.


Lemma elem_of_stage_log request p line :
  line ∈ stage_log request p ↔
  ∃ v, QueryDict_get (parameter_name p) (GET request) = Some v
       ∧ v ≠ "" ∧ parsed_filter p v = None ∧ line = rejection_message p v.
Proof.
  unfold stage_log.
  destruct (QueryDict_get (parameter_name p) (GET request)) as [v|]; last first.
  { split; [by intros ?%elem_of_nil | by intros (? & [=] & _)]. }
  destruct v as [|c v].
  { split; [by intros ?%elem_of_nil | by intros (? & [= <-] & ? & _)]. }
  cbn [truthy]. destruct (parsed_filter p (String c v)) eqn:Hparsed.
  - split; [by intros ?%elem_of_nil|]. intros (? & [= <-] & _ & ? & _). congruence.
  - rewrite list_elem_of_singleton. split.
    + intros ->. by exists (String c v).
    + by intros (? & [= <-] & _ & _ & ->).
Qed.

(** X1.  [get_queryset] never raises and leaves the database and the
    cache as they are.  It appends to the log exactly one line for every
    parameter whose non-empty value is rejected, naming the value, in the
    order category, muscles, muscles_secondary, equipment, license; an
    accepted, empty or absent parameter logs nothing. *)
Theorem get_queryset_result_and_log request w :
  ∃ qs lines,
    ExerciseViewSet_get_queryset request w
    = (Ok qs, with_log (log w ++ lines) w)
    ∧ lines = concat (stage_log request <$> filter_parameters)
    ∧ ∀ line, line ∈ lines ↔
              ∃ p v, QueryDict_get (parameter_name p) (GET request) = Some v
                     ∧ v ≠ ""
                     ∧ parsed_filter p v = None
                     ∧ line = rejection_message p v.
Proof.
  eexists _, _. split; [apply get_queryset_exact|]. split; [done|].
  intros line. cbn [filter_parameters fmap list_fmap concat].
  rewrite !elem_of_app, !elem_of_stage_log. split.
  - intros [?|[?|[?|[?|[?|?%elem_of_nil]]]]]; [by eexists..|done].
  - intros ([] & Hp); tauto.
Qed.

(** Two rejected values give two lines, the accepted one none. *)
Example get_queryset_logs_rejected_values :
  (ExerciseViewSet_get_queryset
     (get_request [("license", "x"); ("equipment", "3"); ("muscles", "1,,2")])
     installation).2
  = with_log ["Got 1,,2 as muscle IDs"; "Got x as license ID"] installation.
Proof. by vm_compute. Qed.

(** X2.  An exercise is in the result of [get_queryset] exactly when it
    is stored and every parameter lets it through: a parameter that is
    absent, empty or rejected lets everything through, an accepted one
    only the exercises whose base has the requested category or license,
    or one of the requested muscles or pieces of equipment.  An exercise
    without a base passes no accepted filter. *)
Theorem get_queryset_selects request w e :
  ∃ qs, (ExerciseViewSet_get_queryset request w).1 = Ok qs
        ∧ (e ∈ qs ↔ e ∈ exercises w ∧ ∀ p, passes request e p).
Proof.
  rewrite get_queryset_exact. eexists. split; [done|].
  apply elem_of_filter_stages.
Qed.

Example get_queryset_selects_legs :
  (ExerciseViewSet_get_queryset
     (get_request [("category", "9"); ("license", "1")]) installation).1
  = Ok [squat].
Proof. by vm_compute. Qed.

Lemma filter_all {A} (P : A → Prop) `{∀ x, Decision (P x)} (l : list A) :
  (∀ x, x ∈ l → P x) → filter P l = l.
Proof.
  induction l as [|x l IH]; intros Hall; [done|].
  rewrite filter_cons_True by (apply Hall; left).
  f_equal. apply IH. intros y Hy. apply Hall. by right.
Qed.

Lemma count_filter_base_related_in relation ids qs e :
  length (filter (λ x, x = e) (filter_base_related_in relation ids qs))
  = (length (filter (λ x, x = e) qs)
     * from_option (λ base, length (filter (λ k, k ∈ ids) (relation base))) 0
                   (exercise_base e))%nat.
Proof.
  unfold filter_base_related_in. induction qs as [|x qs IH]; [done|].
  rewrite bind_cons, filter_app, length_app, IH.
  destruct (decide (x = e)) as [->|Hne].
  - rewrite (filter_cons_True _ e) by done. cbn [length].
    destruct (exercise_base e) as [base|]; cbn [from_option];
      [|rewrite filter_nil; simpl; lia].
    rewrite (filter_all _ (replicate _ e)), length_replicate; [simpl; lia|].
    by intros ? [-> _]%elem_of_replicate.
  - rewrite (filter_cons_False _ x) by done.
    rewrite (filter_none (λ y, y = e)); [done|].
    intros y Hy ->. destruct (exercise_base x); [|by apply elem_of_nil in Hy].
    by apply elem_of_replicate in Hy as [-> _].
Qed.

Lemma filter_stage_absent request qs p :
  QueryDict_get (parameter_name p) (GET request) = None →
  filter_stage request qs p = qs.
Proof. unfold filter_stage. by intros ->. Qed.

(** X3.  The filters on muscles, secondary muscles and equipment repeat
    rows: when one of them is the only parameter and its value is
    accepted, every stored exercise is returned once for each of the
    requested keys its base is related to, so several times when several
    keys match, and never when none does or when it has no base. *)
Theorem get_queryset_repeats_per_related_key p request w v ids e :
  p ∈ [muscles_filter; muscles_secondary_filter; equipment_filter] →
  QueryDict_get (parameter_name p) (GET request) = Some v →
  v ≠ "" →
  mapM int (split "," v) = Some ids →
  (∀ p', p' ≠ p → QueryDict_get (parameter_name p') (GET request) = None) →
  ∃ qs,
    (ExerciseViewSet_get_queryset request w).1 = Ok qs
    ∧ length (filter (λ x, x = e) qs)
      = (length (filter (λ x, x = e) (exercises w))
         * from_option
             (λ base, length (filter (λ k, k ∈ ids) (related_keys p base))) 0
             (exercise_base e))%nat.
Proof.
  intros Hp Hvalue Hnonempty Hids Hothers.
  rewrite get_queryset_exact. eexists. split; [done|].
  assert (truthy v = true) as Htruthy by by destruct v.
  assert (∀ qs, filter_stage request qs p
                = filter_base_related_in (related_keys p) ids qs) as Hstage.
  { intros qs. unfold filter_stage. rewrite Hvalue, Htruthy.
    apply list_elem_of_In in Hp. simpl in Hp.
    destruct Hp as [<- | [<- | [<- | []]]]; cbn [parsed_filter]; by rewrite Hids. }
  cbn [filter_parameters foldl].
  apply list_elem_of_In in Hp. simpl in Hp.
  destruct Hp as [<- | [<- | [<- | []]]];
    rewrite !(filter_stage_absent request _ category_filter),
            !(filter_stage_absent request _ license_filter)
      by (by apply Hothers).
  - rewrite !(filter_stage_absent request _ muscles_secondary_filter),
            !(filter_stage_absent request _ equipment_filter)
      by (by apply Hothers).
    rewrite Hstage. apply count_filter_base_related_in.
  - rewrite !(filter_stage_absent request _ muscles_filter),
            !(filter_stage_absent request _ equipment_filter)
      by (by apply Hothers).
    rewrite Hstage. apply count_filter_base_related_in.
  - rewrite !(filter_stage_absent request _ muscles_filter),
            !(filter_stage_absent request _ muscles_secondary_filter)
      by (by apply Hothers).
    rewrite Hstage. apply count_filter_base_related_in.
Qed.

Lemma get_queryset_repeats_per_related_key_witness :
  ∃ qs,
    (ExerciseViewSet_get_queryset (get_request [("muscles", "1,13,10")])
       installation).1 = Ok qs
    ∧ length (filter (λ x, x = biceps_curl) qs)
      = (length (filter (λ x, x = biceps_curl) (exercises installation))
         * from_option
             (λ base, length (filter (λ k, k ∈ [1%Z; 13%Z; 10%Z])
                                     (related_keys muscles_filter base))) 0
             (exercise_base biceps_curl))%nat.
Proof.
  apply (get_queryset_repeats_per_related_key muscles_filter
           (get_request [("muscles", "1,13,10")]) installation "1,13,10").
  - apply list_elem_of_In. simpl. auto.
  - reflexivity.
  - discriminate.
  - reflexivity.
  - intros p' Hne. by destruct p'.
Defined.

(** ** [search]: errors *)

Lemma exercise_json_without_base env e w :
  exercise_base e = None →
  exercise_json env e w = (Raised (AttributeError "exerciseimage_set"), w).
Proof.
  intros Hbase. unfold exercise_json, Exercise_main_image, Exercise_images,
    exercise_base_attr. by rewrite Hbase.
Qed.

(** The loop of [search] stops at the first exercise without a base. *)
Lemma mapM_exercise_json_run env found w :
  mapM (exercise_json env) found w =
    if decide (Forall (λ e, is_Some (exercise_base e)) found)
    then (Ok (suggestion env w <$> found), w)
    else (Raised (AttributeError "exerciseimage_set"), w).
Proof.
  induction found as [|e found IH].
  { by rewrite decide_True by constructor. }
  cbn [mapM]. rewrite M_bind_run.
  destruct (exercise_base e) as [base|] eqn:Hbase.
  - rewrite exercise_json_run by (by rewrite Hbase).
    unfold mbind at 1, M_bind at 1. fold (@mapM M _ _ _ _ (exercise_json env)).
    rewrite IH. destruct (decide (Forall _ found)) as [Hall|Hsome].
    + rewrite decide_True; [done|]. constructor; [by rewrite Hbase | done].
    + rewrite decide_False; [done|]. by intros [_ ?]%Forall_cons.
  - rewrite exercise_json_without_base by done.
    rewrite decide_False; [done|]. intros [[? Hsome] _]%Forall_cons. congruence.
Qed.

(** X5.  For a non-empty term, [search] raises the attribute error of
    the missing base exactly when some exercise that matches the term in
    a visible language has no base; otherwise it answers with success
    status. *)
Theorem search_raises_exactly_without_base env request w q :
  QueryDict_get "term" (GET request) = Some q →
  q ≠ "" →
  ((search env request w).1 = Raised (AttributeError "exerciseimage_set")
   ↔ ∃ e, matches q (load_item_languages env
                       (QueryDict_get "language" (GET request))) w e
          ∧ exercise_base e = None)
  ∧ ((∃ body, (search env request w).1 = Ok (Response HTTP_200_OK body))
     ↔ ∀ e, matches q (load_item_languages env
                         (QueryDict_get "language" (GET request))) w e →
            is_Some (exercise_base e)).
Proof.
  intros Hterm Hnonempty. unfold search. rewrite Hterm. cbn [given default].
  destruct q as [|c q]; [done|]. cbn [truthy].
  rewrite M_bind_run. cbn [gets]. rewrite M_bind_run, mapM_exercise_json_run.
  set (found := search_queryset _ _ w).
  destruct (decide (Forall (λ e, is_Some (exercise_base e)) found)) as [Hall|Hsome].
  - rewrite Forall_forall in Hall. cbn [fst]. split; split.
    + done.
    + intros (e & He%search_queryset_matches & Hbase).
      destruct (Hall e He) as [? ?]. congruence.
    + intros _ e He%search_queryset_matches. by apply Hall.
    + intros _. by eexists.
  - cbn [fst]. apply not_Forall_Exists in Hsome; [|apply _].
    apply Exists_exists in Hsome as (e & He & Hbase). split; split.
    + intros _. exists e. split; [by apply search_queryset_matches|].
      by apply eq_None_not_Some.
    + done.
    + by intros [? ?].
    + intros Hall. destruct Hbase. by apply Hall, search_queryset_matches.
Qed.

Lemma search_raises_exactly_without_base_witness :
  ((search site (get_request [("term", "press")]) installation_with_orphan).1
   = Raised (AttributeError "exerciseimage_set")
   ↔ ∃ e, matches "press"
            (load_item_languages site
               (QueryDict_get "language" (GET (get_request [("term", "press")]))))
            installation_with_orphan e
          ∧ exercise_base e = None)
  ∧ ((∃ body, (search site (get_request [("term", "press")])
                 installation_with_orphan).1
              = Ok (Response HTTP_200_OK body))
     ↔ ∀ e, matches "press"
              (load_item_languages site
                 (QueryDict_get "language" (GET (get_request [("term", "press")]))))
              installation_with_orphan e →
            is_Some (exercise_base e)).
Proof.
  apply (search_raises_exactly_without_base site
           (get_request [("term", "press")]) installation_with_orphan "press").
  - reflexivity.
  - discriminate.
Defined.

(** ** [thumbnails] of a known image *)

Lemma dict_get_set_eq k v d : dict_get k (dict_set k v d) = Some v.
Proof.
  induction d as [|[k' v'] d IH]; cbn [dict_set].
  - by rewrite dict_get_cons, decide_True.
  - destruct (String.eqb_spec k k') as [<-|Hne].
    + by rewrite dict_get_cons, decide_True.
    + by rewrite dict_get_cons, decide_False.
Qed.

Lemma dict_get_set_ne k k' v d :
  k ≠ k' → dict_get k' (dict_set k v d) = dict_get k' d.
Proof.
  intros Hne. induction d as [|[k'' v''] d IH]; cbn [dict_set].
  - by rewrite dict_get_cons, decide_False.
  - destruct (String.eqb_spec k k'') as [<-|Hne'].
    + by rewrite !dict_get_cons, !decide_False.
    + rewrite !dict_get_cons. by destruct (decide (k'' = k')).
Qed.

(** The dict after the loop over the aliases. *)
Lemma dict_get_foldl_set (entry : string → JSON) names d k :
  dict_get k (foldl (λ d name, dict_set name (entry name) d) d names)
  = if decide (k ∈ names) then Some (entry k) else dict_get k d.
Proof.
  revert d. induction names as [|name names IH]; intros d; cbn [foldl].
  - by rewrite decide_False by apply not_elem_of_nil.
  - rewrite IH. destruct (decide (k ∈ names)) as [Hin|Hout].
    + by rewrite decide_True by (by right).
    + destruct (decide (name = k)) as [->|Hne].
      * rewrite decide_True by left. apply dict_get_set_eq.
      * rewrite decide_False by (intros [?|?]%elem_of_cons; done).
        by apply dict_get_set_ne.
Qed.

(** X6.  When the requested id is an integer that is the id of exactly
    one image, [thumbnails] answers with a mapping that holds under
    [original] the URL of the image and under the name of every
    configured alias other than [original] the URL of that thumbnail
    with the settings of the alias, and that has no other keys.  An
    alias named [original] is overwritten by the URL of the image. *)
Theorem thumbnails_of_known_image env request pk key w row :
  int pk = Some key →
  filter (λ i, image_pk i = key) (exercise_images w) = [row] →
  ∃ d,
    (ExerciseImageViewSet_thumbnails env request pk w).1
    = Ok (Response HTTP_200_OK (JDict d))
    ∧ dict_get "original" d = Some (JStr (url (image row)))
    ∧ (∀ name, name ∈ aliases_all env → name ≠ "original" →
         dict_get name d
         = Some (JDict [("url", JStr (get_thumbnail_url env (image row)
                                        (aliases_get env name)));
                        ("settings", aliases_get env name)]))
    ∧ (∀ k, is_Some (dict_get k d) → k = "original" ∨ k ∈ aliases_all env).
Proof.
  intros Hkey Hrow. eexists. split_and!.
  - rewrite thumbnails_run, Hkey, Hrow. reflexivity.
  - apply dict_get_set_eq.
  - intros name Hname Hne. rewrite dict_get_set_ne by done.
    rewrite (dict_get_foldl_set
               (λ name, JDict [("url", JStr (get_thumbnail_url env (image row)
                                               (aliases_get env name)));
                               ("settings", aliases_get env name)])).
    by rewrite decide_True.
  - intros k Hsome. destruct (decide (k = "original")) as [|Hne]; [by left|].
    right. rewrite dict_get_set_ne in Hsome by done.
    rewrite (dict_get_foldl_set
               (λ name, JDict [("url", JStr (get_thumbnail_url env (image row)
                                               (aliases_get env name)));
                               ("settings", aliases_get env name)])) in Hsome.
    destruct (decide (k ∈ aliases_all env)); [done|]. by destruct Hsome.
Qed.

Lemma thumbnails_of_known_image_witness :
  ∃ d,
    (ExerciseImageViewSet_thumbnails site (get_request []) "2" installation).1
    = Ok (Response HTTP_200_OK (JDict d))
    ∧ dict_get "original" d = Some (JStr (url (image curl_side)))
    ∧ (∀ name, name ∈ aliases_all site → name ≠ "original" →
         dict_get name d
         = Some (JDict [("url", JStr (get_thumbnail_url site (image curl_side)
                                        (aliases_get site name)));
                        ("settings", aliases_get site name)]))
    ∧ (∀ k, is_Some (dict_get k d) → k = "original" ∨ k ∈ aliases_all site).
Proof.
  apply (thumbnails_of_known_image site (get_request []) "2" 2 installation
           curl_side); reflexivity.
Defined.

(** ** [Exercise.save] and [Exercise.delete]: the cache and the rows *)

Lemma Model_delete_run self w :
  Model_delete self w =
    match pk self with
    | None => (Raised AssertionError, w)
    | Some i =>
        (Ok tt,
         with_aliases (filter (λ a, alias_exercise_id a ≠ i) (aliases w))
           (with_exercises (filter (λ e, pk e ≠ Some i) (exercises w))
              (historical "-" self w :: exercise_history w) w))
    end.
Proof. done. Qed.

(** X7.  [Exercise.save] and [Exercise.delete] remove from the cache the
    three overview fragments of every language and, when the exercise
    has a base, the canonical form of the workouts of its settings; every
    other cached entry is kept, whether or not they go on to raise. *)
Theorem save_and_delete_remove_exactly self w k :
  cache (Exercise_save self w).2 !! k
  = (if decide (k ∈ removed_keys self w) then None else cache w !! k)
  ∧ cache (Exercise_delete self w).2 !! k
    = (if decide (k ∈ removed_keys self w) then None else cache w !! k).
Proof.
  unfold removed_keys. rewrite Exercise_save_run, Exercise_delete_run.
  destruct (exercise_base self) as [base|]; cbn [from_option].
  - rewrite Model_delete_cache. cbn [snd cache with_cache Model_save with_exercises].
    rewrite !lookup_remove_keys.
    destruct (decide (k ∈ workout_keys (setting_set base w))),
             (decide (k ∈ fragment_keys (languages w)));
      (rewrite decide_True by (apply elem_of_app; auto))
      || (rewrite decide_False by (intros [?|?]%elem_of_app; done)); done.
  - cbn [snd cache with_cache Model_save with_exercises].
    rewrite app_nil_r, !lookup_remove_keys. done.
Qed.

Lemma pk_le_max_pk es e i : e ∈ es → pk e = Some i → i ≤ max_pk es.
Proof.
  intros He Hpk. induction es as [|e' es IH]; [by apply elem_of_nil in He|].
  cbn [max_pk foldr]. fold (max_pk es).
  apply elem_of_cons in He as [<-|He].
  - rewrite Hpk. cbn [default from_option id]. lia.
  - specialize (IH He). lia.
Qed.






Lemma filter_NoDup_fmap {A B} (f : A → B) (P : A → Prop)
    `{∀ x, Decision (P x)} (l : list A) :
  NoDup (f <$> l) → NoDup (f <$> filter P l).
Proof.
  induction l as [|x l IH]; [done|]. csimpl.
  intros [Hx Hnodup]%NoDup_cons. specialize (IH Hnodup).
  destruct (decide (P x)).
  - rewrite filter_cons_True by done. csimpl. apply NoDup_cons. split; [|done].
    intros (y & Hy & [_ ?]%list_elem_of_filter)%list_elem_of_fmap.
    apply Hx, list_elem_of_fmap. by exists y.
  - by rewrite filter_cons_False.
Qed.

(** X9.  [Exercise.delete] of an exercise with a base and a primary
    key completes: afterwards no row has its key, every row with another
    key is as before, a revision of type [-] heads the history, and the
    keys stay unique. *)
Theorem delete_removes_the_row self w base i :
  exercise_base self = Some base →
  pk self = Some i →
  (Exercise_delete self w).1 = Ok tt
  ∧ (∀ e, e ∈ exercises (Exercise_delete self w).2 ↔
          e ∈ exercises w ∧ pk e ≠ Some i)
  ∧ history_type <$> exercise_history (Exercise_delete self w).2
    = "-" :: (history_type <$> exercise_history w)
  ∧ (well_keyed w → well_keyed (Exercise_delete self w).2).
Proof.
  intros Hbase Hpk. rewrite Exercise_delete_run, Hbase, Model_delete_run, Hpk.
  cbn [fst snd exercises aliases exercise_history with_aliases with_exercises
       with_cache].
  split_and!; [done| |done|].
  - intros e. rewrite list_elem_of_filter. naive_solver.
  - intros [Hnodup Hkeys]. unfold well_keyed.
    cbn [exercises with_aliases with_exercises with_cache]. split.
    + by apply filter_NoDup_fmap.
    + intros e [_ He]%list_elem_of_filter. by apply Hkeys.
Qed.

Lemma delete_removes_the_row_witness :
  (Exercise_delete squat installation).1 = Ok tt
  ∧ (∀ e, e ∈ exercises (Exercise_delete squat installation).2 ↔
          e ∈ exercises installation ∧ pk e ≠ Some 3)
  ∧ history_type <$> exercise_history (Exercise_delete squat installation).2
    = "-" :: (history_type <$> exercise_history installation)
  ∧ (well_keyed installation → well_keyed (Exercise_delete squat installation).2).
Proof.
  apply (delete_removes_the_row squat installation squat_base 3); reflexivity.
Defined.

(** X10.  Saving a new exercise with a base and then deleting the saved
    instance completes and leaves the stored exercises as they were: the
    history is longer by the two revisions, [+] and then [-], of the
    same instance. *)
Theorem save_then_delete_restores_rows self w base :
  exercise_base self = Some base →
  pk self = None →
  ∃ saved w1 w2,
    Exercise_save self w = (Ok saved, w1)
    ∧ Exercise_delete saved w1 = (Ok tt, w2)
    ∧ exercises w2 = exercises w
    ∧ ∃ created deleted,
        exercise_history w2 = deleted :: created :: exercise_history w
        ∧ history_type created = "+" ∧ history_type deleted = "-"
        ∧ instance created = saved ∧ instance deleted = saved.
Proof.
  intros Hbase Hpk.
  assert (is_stored self w = false) as Hnew by (unfold is_stored; by rewrite Hpk).
  eexists _, _, _. split.
  { rewrite Exercise_save_run, Hbase. reflexivity. }
  split.
  { rewrite Exercise_delete_run. cbn [stamped exercise_base]. rewrite Hbase.
    rewrite Model_delete_run. cbn [stamped pk]. reflexivity. }
  cbn [exercises aliases exercise_history with_aliases with_exercises
       with_exercise_sequence with_cache Model_save snd].
  rewrite Hnew, Hpk. cbn [default from_option].
  split; [|by eexists _, _].
  rewrite filter_app, filter_all.
  - rewrite filter_cons_False, filter_nil, app_nil_r; [done|].
    cbn [stamped pk]. rewrite Hpk. cbn. naive_solver.
  - intros e He Heq. pose proof (pk_le_max_pk _ _ _ He Heq).
    unfold next_pk in *. lia.
Qed.

Lemma save_then_delete_restores_rows_witness :
  ∃ saved w1 w2,
    Exercise_save front_squat installation = (Ok saved, w1)
    ∧ Exercise_delete saved w1 = (Ok tt, w2)
    ∧ exercises w2 = exercises installation
    ∧ ∃ created deleted,
        exercise_history w2 = deleted :: created :: exercise_history installation
        ∧ history_type created = "+" ∧ history_type deleted = "-"
        ∧ instance created = saved ∧ instance deleted = saved.
Proof.
  apply (save_then_delete_restores_rows front_squat installation squat_base);
    reflexivity.
Defined.

(** ** [Exercise.variations] *)

(** X11.  [Exercise.variations] raises on an exercise without a base.
    Otherwise it changes nothing and returns exactly the stored
    exercises in the language of the exercise whose base is a stored base
    of the same variation group; the list is empty when the base of the
    exercise has no variation group. *)
Theorem variations_are_same_group_and_language variations_id self w :
  match exercise_base self with
  | None =>
      Exercise_variations variations_id self w
      = (Raised (AttributeError "variations"), w)
  | Some base =>
      ∃ out,
        Exercise_variations variations_id self w = (Ok out, w)
        ∧ (variations_id base = None → out = [])
        ∧ ∀ e, e ∈ out ↔
               e ∈ exercises w
               ∧ language_pk (language e) = language_pk (language self)
               ∧ ∃ group variation,
                   variations_id base = Some group
                   ∧ variation ∈ exercise_bases w
                   ∧ variations_id variation = Some group
                   ∧ base_pk <$> exercise_base e = Some (base_pk variation)
  end.
Proof.
  unfold Exercise_variations, exercise_base_attr.
  destruct (exercise_base self) as [base|]; [|done].
  rewrite M_bind_run. cbn [mret M_ret].
  destruct (variations_id base) as [group|].
  - eexists. split; [reflexivity|]. split; [done|]. intros e.
    rewrite list_elem_of_bind. split.
    + intros (variation & [[? ?] ?]%list_elem_of_filter
                        & [? ?]%list_elem_of_filter).
      split_and!; [done..|]. by exists group, variation.
    + intros (? & ? & group' & variation & [= <-] & ? & ? & ?).
      exists variation. by rewrite !list_elem_of_filter.
  - exists []. split; [done|]. split; [done|]. intros e. split.
    + by intros ?%elem_of_nil.
    + by intros (_ & _ & ? & ? & ? & _).
Qed.

(** X12.  A stored exercise whose base is stored and belongs to a
    variation group is among its own variations. *)
Theorem variations_include_the_exercise variations_id self w base group :
  self ∈ exercises w →
  exercise_base self = Some base →
  base ∈ exercise_bases w →
  variations_id base = Some group →
  ∃ out, Exercise_variations variations_id self w = (Ok out, w) ∧ self ∈ out.
Proof.
  intros Hself Hbase Hstored Hgroup.
  unfold Exercise_variations, exercise_base_attr. rewrite Hbase.
  rewrite M_bind_run. cbn [mret M_ret]. rewrite Hgroup.
  eexists. split; [reflexivity|]. apply list_elem_of_bind. exists base.
  rewrite !list_elem_of_filter, Hbase. done.
Qed.

Lemma variations_include_the_exercise_witness :
  ∃ out, Exercise_variations one_group squat installation = (Ok out, installation)
         ∧ squat ∈ out.
Proof.
  apply (variations_include_the_exercise one_group squat installation squat_base 1).
  - apply list_elem_of_In. simpl. auto.
  - reflexivity.
  - apply list_elem_of_In. simpl. auto.
  - reflexivity.
Defined.

(** With every base in one group, the English variations of the squat
    are the biceps curl and the squat itself. *)
Example variations_of_squat :
  Exercise_variations one_group squat installation
  = (Ok [biceps_curl; squat], installation).
Proof. by vm_compute. Qed.

(** ** [Exercise.set_author] *)

(** [s.split(sep)[0]] is the text before the first separator. *)
Lemma head_split sep s :
  ∃ h, head (split sep s) = Some h
       ∧ (sep ∉ chars h)
       ∧ (s = h ∨ ∃ rest, s = (h +:+ String sep rest)).
Proof.
  induction s as [|c s (h & Hhead & Hsep & Hrest)].
  - exists "". split_and!; [done|apply not_elem_of_nil|by left].
  - cbn [split]. destruct (Ascii.eqb_spec c sep) as [->|Hne].
    + exists "". split_and!; [done|apply not_elem_of_nil|]. right. by exists s.
    + destruct (split sep s) as [|w ws]; [done|]. cbn in Hhead. simplify_eq.
      exists (String c h). split_and!; [done| |].
      * cbn [chars String.list_ascii_of_string].
        intros [?|?]%elem_of_cons; [done | by apply Hsep].
      * destruct Hrest as [->|[rest ->]]; [by left|]. right. by exists rest.
Qed.

(** X13.  For a user who may add exercises, [set_author] sends no mail,
    and an exercise without author gets as author the host of the
    request without its port: the text of the host before the first
    colon. *)
Theorem set_author_of_trusted_user env get_host self request :
  has_perm (user request) "exercises.add_exercise" = true →
  license_author self = "" →
  ∃ host,
    Exercise_set_author env get_host self request
    = (with_license_author host self, [])
    ∧ (":"%char ∉ chars host)
    ∧ (get_host request = host
       ∨ ∃ port, get_host request = (host +:+ String ":" port)).
Proof.
  intros Hperm Hauthor. unfold Exercise_set_author. rewrite Hperm, Hauthor.
  destruct (head_split ":" (get_host request)) as (h & Hhead & Hsep & Hrest).
  exists h. rewrite Hhead. done.
Qed.

Lemma set_author_of_trusted_user_witness :
  ∃ host,
    Exercise_set_author site local_host front_squat (post_request long_curl)
    = (with_license_author host front_squat, [])
    ∧ (":"%char ∉ chars host)
    ∧ (local_host (post_request long_curl) = host
       ∨ ∃ port, local_host (post_request long_curl) = (host +:+ String ":" port)).
Proof.
  apply (set_author_of_trusted_user site local_host front_squat
           (post_request long_curl)); reflexivity.
Defined.

Example set_author_of_admin :
  license_author
    (Exercise_set_author site local_host front_squat (post_request long_curl)).1
  = "localhost".
Proof. by vm_compute. Qed.

(** X14.  [set_author] never replaces an author that is already set,
    and applied again to its own result for the same request it returns
    that result.  It hands a mail to the administrators exactly when the
    user may not add exercises: then one mail, whose message is
    formatted with the name of the user and the name of the exercise. *)
Theorem set_author_settles env get_host self request :
  (license_author self ≠ "" →
   (Exercise_set_author env get_host self request).1 = self)
  ∧ (Exercise_set_author env get_host
       (Exercise_set_author env get_host self request).1 request).1
    = (Exercise_set_author env get_host self request).1
  ∧ length (Exercise_set_author env get_host self request).2
    = (if has_perm (user request) "exercises.add_exercise" then 0 else 1)%nat
  ∧ ∀ mail, mail ∈ (Exercise_set_author env get_host self request).2 →
            mail_arguments mail = [username (user request); name self].
Proof.
  unfold Exercise_set_author. split_and!.
  - intros Hauthor. assert (truthy (license_author self) = true) as ->
      by by destruct (license_author self).
    by destruct (has_perm _ _).
  - destruct (has_perm _ _), (truthy (license_author self)) eqn:Hgiven;
      cbn [fst negb].
    + by rewrite Hgiven.
    + cbn [license_author with_license_author].
      by destruct (truthy (default "" (head (split ":" (get_host request))))).
    + by rewrite Hgiven.
    + cbn [license_author with_license_author].
      by destruct (truthy (username (user request))).
  - by destruct (has_perm _ _).
  - destruct (has_perm _ _); cbn [snd].
    + by intros mail ?%elem_of_nil.
    + intros mail ->%list_elem_of_singleton. cbn [mail_arguments].
      by destruct (truthy (license_author self)).
Qed.

(** A guest submits the front squat: the guest becomes its author and
    the administrators get one mail. *)
Example set_author_of_guest :
  let result :=
    Exercise_set_author site local_host front_squat
      {| user := guest; GET := []; data := long_curl |} in
  license_author result.1 = "guest"
  ∧ mail_arguments <$> result.2 = [["guest"; "Front squat"]].
Proof. by vm_compute. Qed.

(** ** The activity stream *)

Lemma perform_run request the_verb self w :
  (saved ← Exercise_save self;
   actstream_action_send (user request) the_verb saved;;
   mret saved) w
  = match Exercise_save self w with
    | (Ok saved, w') =>
        (Ok saved,
         with_actions (actions w' ++ [{| actor := username (user request);
                                          verb := the_verb;
                                          action_object := saved |}])%list w')
    | (Raised e, w') => (Raised e, w')
    end.
Proof.
  rewrite M_bind_run. by destruct (Exercise_save self w) as [[saved|e] w'].
Qed.

Lemma actions_after_save self w : actions (Exercise_save self w).2 = actions w.
Proof. rewrite Exercise_save_run. by destruct (exercise_base self). Qed.

(** X15.  [perform_create] and [perform_update] save the instance and,
    when the save completes, append one entry to the activity stream:
    the user as actor, the verb [created] or [updated], the saved
    instance as object.  When the save raises, for an exercise without a
    base, the error is passed on and no entry is recorded. *)
Theorem perform_create_and_update_record request self w :
  match exercise_base self with
  | Some _ =>
      (ExerciseTranslationViewSet_perform_create request self w).1
      = Ok (stamped self w)
      ∧ actions (ExerciseTranslationViewSet_perform_create request self w).2
        = (actions w ++ [{| actor := username (user request); verb := "created";
                            action_object := stamped self w |}])%list
      ∧ (ExerciseTranslationViewSet_perform_update request self w).1
        = Ok (stamped self w)
      ∧ actions (ExerciseTranslationViewSet_perform_update request self w).2
        = (actions w ++ [{| actor := username (user request); verb := "updated";
                            action_object := stamped self w |}])%list
  | None =>
      (ExerciseTranslationViewSet_perform_create request self w).1
      = Raised (AttributeError "setting_set")
      ∧ actions (ExerciseTranslationViewSet_perform_create request self w).2
        = actions w
      ∧ (ExerciseTranslationViewSet_perform_update request self w).1
        = Raised (AttributeError "setting_set")
      ∧ actions (ExerciseTranslationViewSet_perform_update request self w).2
        = actions w
  end.
Proof.
  unfold ExerciseTranslationViewSet_perform_create,
    ExerciseTranslationViewSet_perform_update.
  rewrite !perform_run. pose proof (actions_after_save self w) as Hactions.
  rewrite Exercise_save_run in *.
  destruct (exercise_base self) as [base|]; cbn [fst snd] in *.
  - cbn [actions with_actions]. by rewrite Hactions.
  - done.
Qed.

(** X16.  An exercise created through [perform_create] shows up in the
    history: for a viewer with the permission, [overview] then renders
    [history/list.html] with the whole stream, the new entry with the
    verb [created] first and the entries of before after it. *)
Theorem created_exercise_heads_the_stream members request viewer self w base :
  exercise_base self = Some base →
  has_perm (user viewer) "exercises.change_exercise" = true →
  ∃ saved w',
    ExerciseTranslationViewSet_perform_create request self w = (Ok saved, w')
    ∧ overview members viewer w'
      = (Ok (RenderStream "history/list.html"
               ({| actor := username (user request); verb := "created";
                   action_object := saved |} :: reverse (actions w))
               members),
         w').
Proof.
  intros Hbase Hperm. unfold ExerciseTranslationViewSet_perform_create.
  pose proof (actions_after_save self w) as Hactions.
  rewrite perform_run. rewrite Exercise_save_run in *. rewrite Hbase in *.
  eexists _, _. split; [reflexivity|].
  unfold overview. rewrite Hperm, M_bind_run. cbn [gets actions with_actions].
  cbn [snd] in Hactions. by rewrite Hactions, reverse_snoc.
Qed.

Lemma created_exercise_heads_the_stream_witness :
  ∃ saved w',
    ExerciseTranslationViewSet_perform_create (post_request long_curl)
      front_squat installation = (Ok saved, w')
    ∧ overview example_modes (get_request []) w'
      = (Ok (RenderStream "history/list.html"
               ({| actor := username (user (post_request long_curl));
                   verb := "created"; action_object := saved |}
                :: reverse (actions installation))
               example_modes),
         w').
Proof.
  apply (created_exercise_heads_the_stream example_modes (post_request long_curl)
           (get_request []) front_squat installation squat_base); reflexivity.
Defined.

(** ** From saving to the history of revisions *)

Lemma history_after_save self w :
  exercise_history (Exercise_save self w).2
  = historical (if is_stored self w then "~" else "+") (stamped self w) w
    :: exercise_history w.
Proof. rewrite Exercise_save_run. by destruct (exercise_base self). Qed.

(** X17.  A saved change shows up in the history of revisions: when the
    exercise has a primary key and the history holds a revision of it
    that is older than the time of the save, then after [Exercise.save],
    for a viewer with the permission, the first row of [overview2] is the
    revision just written, dated at the time of the save, with its diff
    against the latest older revision of the same exercise; the diff
    names exactly the compared columns in which the saved exercise
    differs from that revision. *)
Theorem saved_revision_heads_the_history viewer self w base i older :
  exercise_base self = Some base →
  pk self = Some i →
  has_perm (user viewer) "exercises.change_exercise" = true →
  older ∈ exercise_history w →
  pk (instance older) = Some i →
  history_date older < now w →
  ∃ saved w' new previous rest,
    Exercise_save self w = (Ok saved, w')
    ∧ overview2 viewer w'
      = (Ok (Render "history/list2.html"
               ({| record := new; delta := diff_against new previous |} :: rest)),
         w')
    ∧ instance new = saved
    ∧ history_date new = now w
    ∧ previous ∈ exercise_history w
    ∧ pk (instance previous) = Some i
    ∧ history_date older ≤ history_date previous < now w
    ∧ (∀ column, column ∈ changed_fields (diff_against new previous) ↔
                 differs column self (instance previous)).
Proof.
  intros Hbase Hkey Hperm Holder Hsame Hbefore.
  pose proof (history_after_save self w) as Hhistory.
  destruct (Exercise_save self w) as [outcome w'] eqn:Hsave.
  rewrite Exercise_save_run, Hbase in Hsave. injection Hsave as <- Hw'.
  cbn [snd] in Hhistory.
  set (new := historical (if is_stored self w then "~" else "+")
                         (stamped self w) w) in *.
  assert (pk (instance new) = Some i) as Hnew.
  { unfold new. cbn [historical instance stamped pk]. by rewrite Hkey. }
  assert (has_previous new w') as Hprevious.
  { exists older. rewrite Hhistory. split_and!; [by right | congruence | done]. }
  apply prev_record_is_Some in Hprevious as [previous Hprev].
  pose proof (prev_record_Some _ _ _ Hprev) as (Hin & Hpk & Hdate & Hlatest).
  rewrite Hhistory in Hin, Hlatest. rewrite Hnew in Hpk, Hlatest.
  assert (history_date new = now w) as Hnow by done.
  rewrite Hnow in Hdate, Hlatest.
  apply elem_of_cons in Hin as [->|Hin]; [lia|].
  eexists _, w', new, previous, _. split_and!; [done| |done..| |done|].
  - unfold overview2. rewrite Hperm, M_bind_run. cbn [gets].
    rewrite M_bind_run. cbn [gets]. rewrite Hhistory.
    cbn [omap list_omap]. rewrite Hprev. reflexivity.
  - apply Hlatest; [by right | done | done].
  - intros column. rewrite changed_fields_differs. done.
Qed.

Lemma saved_revision_heads_the_history_witness :
  ∃ saved w' new previous rest,
    Exercise_save renamed_squat installation = (Ok saved, w')
    ∧ overview2 (get_request []) w'
      = (Ok (Render "history/list2.html"
               ({| record := new; delta := diff_against new previous |} :: rest)),
         w')
    ∧ instance new = saved
    ∧ history_date new = now installation
    ∧ previous ∈ exercise_history installation
    ∧ pk (instance previous) = Some 3
    ∧ history_date squat_renamed ≤ history_date previous < now installation
    ∧ (∀ column, column ∈ changed_fields (diff_against new previous) ↔
                 differs column renamed_squat (instance previous)).
Proof.
  apply (saved_revision_heads_the_history (get_request []) renamed_squat
           installation squat_base 3 squat_renamed).
  - reflexivity.
  - reflexivity.
  - reflexivity.
  - apply list_elem_of_In. simpl. auto.
  - reflexivity.
  - reflexivity.
Defined.

(** After renaming the squat, the first row of the history is the new
    revision, with the change of the name. *)
Example overview2_after_renaming :
  ∃ rows,
    overview2 (get_request []) (Exercise_save renamed_squat installation).2
    = (Ok (Render "history/list2.html" rows),
       (Exercise_save renamed_squat installation).2)
    ∧ (λ row, (history_type (record row), changed_fields (delta row))) <$> rows
      = [("~", ["name"]); ("~", ["name"])].
Proof. eexists. split; by vm_compute. Qed.

(** ** [ExerciseCommentViewSet.get_queryset] *)

(** X18.  With a non-empty language that [int] accepts, the comment
    list changes nothing and holds exactly the comments whose exercise
    is a stored exercise in that language. *)
Theorem comments_of_language comments request w v key :
  QueryDict_get "language" (GET request) = Some v →
  v ≠ "" →
  int v = Some key →
  ∃ qs,
    ExerciseCommentViewSet_get_queryset comments request w = (Ok qs, w)
    ∧ ∀ c, c ∈ qs ↔
           c ∈ comments
           ∧ ∃ e, e ∈ exercises w
                  ∧ pk e = Some (comment_exercise_id c)
                  ∧ language_pk (language e) = key.
Proof.
  intros Hvalue Hnonempty Hkey. unfold ExerciseCommentViewSet_get_queryset.
  rewrite Hvalue. cbn [given default]. destruct v as [|a v]; [done|].
  cbn [truthy]. rewrite M_bind_run, py_int_run. unfold id. rewrite Hkey.
  eexists. split; [reflexivity|]. intros c.
  rewrite list_elem_of_filter, list_elem_of_fmap.
  setoid_rewrite list_elem_of_filter. naive_solver.
Qed.

Lemma comments_of_language_witness :
  ∃ qs,
    ExerciseCommentViewSet_get_queryset example_comments
      (get_request [("language", " 2")]) installation = (Ok qs, installation)
    ∧ ∀ c, c ∈ qs ↔
           c ∈ example_comments
           ∧ ∃ e, e ∈ exercises installation
                  ∧ pk e = Some (comment_exercise_id c)
                  ∧ language_pk (language e) = 2.
Proof.
  apply (comments_of_language example_comments
           (get_request [("language", " 2")]) installation " 2" 2); done.
Defined.

(** X19.  With a non-empty language that [int] rejects, the comment
    list raises [ValueError]: unlike the filters of the exercise list,
    the value is not guarded by a [try]. *)
Theorem comments_of_rejected_language comments request w v :
  QueryDict_get "language" (GET request) = Some v →
  v ≠ "" →
  int v = None →
  ExerciseCommentViewSet_get_queryset comments request w = (Raised ValueError, w).
Proof.
  intros Hvalue Hnonempty Hrejected. unfold ExerciseCommentViewSet_get_queryset.
  rewrite Hvalue. cbn [given default]. destruct v as [|c v]; [done|].
  cbn [truthy]. rewrite M_bind_run, py_int_run. unfold id. by rewrite Hrejected.
Qed.

Lemma comments_of_rejected_language_witness :
  ExerciseCommentViewSet_get_queryset example_comments
    (get_request [("language", "en")]) installation
  = (Raised ValueError, installation).
Proof.
  apply (comments_of_rejected_language example_comments
           (get_request [("language", "en")]) installation "en"); done.
Defined.

Example comments_in_english :
  ExerciseCommentViewSet_get_queryset example_comments
    (get_request [("language", "2")]) installation
  = (Ok [{| comment_pk := 1; comment_exercise_id := 1;
            comment := "Keep the elbows still" |};
         {| comment_pk := 3; comment_exercise_id := 3;
            comment := "Keep the back straight" |}],
     installation).
Proof. by vm_compute. Qed.
